(** * Graphics_Dashboard: the global-hotkey core of [main.js]

    A shallow embedding of the Electron main process of the dashboard:
    the accelerator translator ([convertToElectronAccelerator]), the hotkey
    registry ([registeredHotkeys], [registerGlobalHotkey],
    [unregisterGlobalHotkey], the bulk and deferred registration passes),
    the command relay and the shutdown handlers.

    JavaScript strings are sequences of UTF-16 code units; the registry is a
    JavaScript object, kept here with its own-property order; handlers run in
    a small state-and-exception monad over the process store. *)

From Stdlib Require Import List String Ascii NArith Arith Bool Lia.
Import ListNotations.

Set Implicit Arguments.

(** ** JavaScript strings *)

Module JsString.

(** A string value: its UTF-16 code units. *)
Definition t := list N.

(** An ASCII literal of the source. *)
Definition lit (s : string) : t :=
  map N_of_ascii (list_ascii_of_string s).

Fixpoint eqb (a b : t) : bool :=
  match a, b with
  | [], [] => true
  | x :: a', y :: b' => N.eqb x y && eqb a' b'
  | _, _ => false
  end.

(** Truthiness of a string value: every string but the empty one. *)
Definition truthy (s : t) : bool :=
  match s with [] => false | _ :: _ => true end.

(** [starts_with p s]: the literal [p] matches at the head of [s]. *)
Fixpoint starts_with (p s : t) : bool :=
  match p, s with
  | [], _ => true
  | _ :: _, [] => false
  | a :: p', b :: s' => N.eqb a b && starts_with p' s'
  end.

(** [contains p s]: the literal [p] matches somewhere in [s]. *)
Fixpoint contains (p s : t) : bool :=
  starts_with p s ||
  match s with
  | [] => false
  | _ :: s' => contains p s'
  end.

(** [s.replace(/p/g, r)] for a literal, non-empty pattern [p] and a
    replacement [r] without [$]: the scan goes left to right, every match
    is replaced and the scan resumes after the match.  [skip] counts the
    code units of the current match still to be consumed. *)
Fixpoint replace_from (p r : t) (skip : nat) (s : t) : t :=
  match s with
  | [] => []
  | c :: s' =>
      match skip with
      | S k => replace_from p r k s'
      | O =>
          if starts_with p (c :: s')
          then r ++ replace_from p r (List.length p - 1) s'
          else c :: replace_from p r 0 s'
      end
  end.

Definition replace_all (p r s : t) : t := replace_from p r 0 s.

(** The class [\s] of a regular expression without the [u] flag:
    WhiteSpace and LineTerminator code points, all in the BMP. *)
Definition is_space (c : N) : bool :=
  ((9 <=? c) && (c <=? 13) || (c =? 32) || (c =? 160) || (c =? 5760)
   || (8192 <=? c) && (c <=? 8202) || (c =? 8232) || (c =? 8233)
   || (c =? 8239) || (c =? 8287) || (c =? 12288) || (c =? 65279))%N.

(** [s.replace(/\s+/g, '')]: every maximal run of white space is deleted. *)
Fixpoint strip_spaces (s : t) : t :=
  match s with
  | [] => []
  | c :: s' => if is_space c then strip_spaces s' else c :: strip_spaces s'
  end.

End JsString.

Definition jsstring : Type := JsString.t.
(** [js "..."]: an ASCII literal of the source as a string value. *)
Definition js : string -> jsstring := JsString.lit.

(** ** Accelerator translator (main.js, lines 112-121) *)

(** The argument is [None] for [null] or [undefined], [Some s] for a
    string. *)
Definition convertToElectronAccelerator (hotkeyString : option jsstring)
  : option jsstring :=
  match hotkeyString with
  | None => None
  | Some s =>
      if negb (JsString.truthy s) then None
      else
        Some (JsString.strip_spaces
                (JsString.replace_all (js " + ") (js "+")
                   (JsString.replace_all (js "Meta") (js "Super")
                      (JsString.replace_all (js "Ctrl") (js "CommandOrControl") s))))
  end.

(** ** JavaScript objects used as maps *)

Module JsObject.

(** The own enumerable string-keyed properties of an ordinary object, in
    the order [Object.keys] lists them: array-index keys first, in
    ascending numeric order, then the other keys in creation order.
    What the object inherits from [Object.prototype] is described after
    this module ([inherited], [assign]). *)
Definition t (V : Type) : Type := list (jsstring * V).

Definition is_digit (c : N) : bool := ((48 <=? c) && (c <=? 57))%N.

Fixpoint decimal (acc : N) (s : jsstring) : option N :=
  match s with
  | [] => Some acc
  | c :: s' =>
      if is_digit c then decimal (10 * acc + (c - 48))%N s' else None
  end.

(** An array index: the canonical decimal form of an integer in
    [0 .. 2^32 - 2]. *)
Definition array_index (k : jsstring) : option N :=
  match k with
  | [] => None
  | c :: rest =>
      if (c =? 48)%N
      then match rest with [] => Some 0%N | _ :: _ => None end
      else match decimal 0 k with
           | Some n => if (n <=? 4294967294)%N then Some n else None
           | None => None
           end
  end.

(** [precedes k k']: a newly created key [k] is listed before the
    existing key [k']. *)
Definition precedes (k k' : jsstring) : bool :=
  match array_index k, array_index k' with
  | Some n, Some n' => (n <? n')%N
  | Some _, None => true
  | None, _ => false
  end.

Section Ops.
Variable V : Type.

(** [o[k]]: [None] is [undefined]. *)
Fixpoint get (o : t V) (k : jsstring) : option V :=
  match o with
  | [] => None
  | (k', v) :: o' => if JsString.eqb k k' then Some v else get o' k
  end.

(** [Object.keys(o)]. *)
Definition keys (o : t V) : list jsstring := map fst o.

Fixpoint update (k : jsstring) (v : V) (o : t V) : t V :=
  match o with
  | [] => []
  | (k', v') :: o' =>
      if JsString.eqb k k' then (k', v) :: o' else (k', v') :: update k v o'
  end.

Fixpoint create (k : jsstring) (v : V) (o : t V) : t V :=
  match o with
  | [] => [(k, v)]
  | (k', v') :: o' =>
      if precedes k k' then (k, v) :: (k', v') :: o'
      else (k', v') :: create k v o'
  end.

(** [o[k] = v]: an existing property keeps its place. *)
Definition set (o : t V) (k : jsstring) (v : V) : t V :=
  match get o k with
  | Some _ => update k v o
  | None => create k v o
  end.

(** [delete o[k]]. *)
Fixpoint delete (o : t V) (k : jsstring) : t V :=
  match o with
  | [] => []
  | (k', v') :: o' =>
      if JsString.eqb k k' then delete o' k else (k', v') :: delete o' k
  end.
End Ops.

End JsObject.

(** ** What an object literal inherits from [Object.prototype] *)

(** The own property names of [Object.prototype]: every one of them reads
    as a truthy value (a function, or the prototype itself for
    [__proto__]) through an object that has no own property of that
    name. *)
Definition prototype_names : list jsstring :=
  map js
      ["constructor"; "__defineGetter__"; "__defineSetter__"; "hasOwnProperty";
       "__lookupGetter__"; "__lookupSetter__"; "isPrototypeOf";
       "propertyIsEnumerable"; "toString"; "valueOf"; "__proto__";
       "toLocaleString"]%string.

Definition inherited (k : jsstring) : bool :=
  existsb (JsString.eqb k) prototype_names.

(** [o[k] = v] for a string [v] on an object created by [{}]: an own
    property is written; without one, the name [__proto__] reaches the
    setter of [Object.prototype], which ignores a value that is not an
    object, and any other name becomes a new own property. *)
Definition assign (o : JsObject.t jsstring) (k v : jsstring)
  : JsObject.t jsstring :=
  match JsObject.get o k with
  | Some _ => JsObject.set o k v
  | None => if JsString.eqb k (js "__proto__") then o else JsObject.set o k v
  end.

(** ** Completions and the handler monad *)

Inductive JsError : Type :=
| ShortcutError   (* thrown by [globalShortcut.register] *)
| TypeError.      (* a send through an absent or destroyed window *)

Inductive Completion (A : Type) : Type :=
| Normal (a : A)
| Thrown (e : JsError).

Arguments Normal {A} a.
Arguments Thrown {A} e.

(** A piece of handler code over a store [S]: it ends normally or by a
    throw, and the store it leaves is kept in both cases. *)
Definition Js (S A : Type) : Type := S -> Completion A * S.

Definition ret {S A : Type} (a : A) : Js S A := fun st => (Normal a, st).

Definition bind {S A B : Type} (c : Js S A) (k : A -> Js S B) : Js S B :=
  fun st =>
    match c st with
    | (Normal a, st') => k a st'
    | (Thrown e, st') => (Thrown e, st')
    end.

Definition throw {S A : Type} (e : JsError) : Js S A :=
  fun st => (Thrown e, st).

(** [try { body } catch (error) { handler }]. *)
Definition try_catch {S A : Type} (body : Js S A) (handler : JsError -> Js S A)
  : Js S A :=
  fun st =>
    match body st with
    | (Normal a, st') => (Normal a, st')
    | (Thrown e, st') => handler e st'
    end.

Declare Scope js_scope.
Delimit Scope js_scope with js.
Notation "x <- c ;; k" := (bind c (fun x => k))
  (at level 61, c at next level, right associativity) : js_scope.
Notation "c ;; k" := (bind c (fun _ => k))
  (at level 61, right associativity) : js_scope.
Open Scope js_scope.

(** [if (b) { c }]. *)
Definition when {S : Type} (b : bool) (c : Js S unit) : Js S unit :=
  if b then c else ret tt.

(** [l.forEach(f)]: a throw of [f] ends the loop. *)
Fixpoint forEach {S A : Type} (l : list A) (f : A -> Js S unit) : Js S unit :=
  match l with
  | [] => ret tt
  | x :: l' => f x ;; forEach l' f
  end.

(** [c] keeps the property [P] of the store and ends normally. *)
Definition preserves {S A : Type} (P : S -> Prop) (c : Js S A) : Prop :=
  forall st, P st -> (exists a, fst (c st) = Normal a) /\ P (snd (c st)).

Definition exec {S A : Type} (c : Js S A) (st : S) : S := snd (c st).
Definition completion {S A : Type} (c : Js S A) (st : S) : Completion A :=
  fst (c st).

(** ** The process store *)

(** A window variable: [undefined] before [createWindows], then a
    [BrowserWindow] that is live until it is destroyed. *)
Inductive Win : Type := Absent | Live | Destroyed.

Inductive Surface : Type := Control | Graphics.

(** What [globalShortcut.register] does with one request: the platform
    grants it (returns [true]), denies it (returns [false]) or the call
    throws. *)
Inductive OsReply : Type := Granted | Denied | Raised.

(** An active registration of [globalShortcut]: the accelerator and the
    action its callback closes over. *)
Definition Shortcut : Type := (jsstring * jsstring)%type.

(** The platform: its answer to the [n]-th registration request of the
    process, given the registrations the process holds at that moment. *)
Definition Platform : Type := nat -> list Shortcut -> jsstring -> OsReply.

(** Electron keeps one callback per accelerator: a request for an
    accelerator the process already holds is not granted. *)
Definition refuses_held (os : Platform) : Prop :=
  forall n held accelerator,
    In accelerator (map fst held) -> os n held accelerator <> Granted.

(** Sample platforms. *)
Definition os_free : Platform :=
  fun _ held accelerator =>
    if existsb (fun e => JsString.eqb accelerator (fst e)) held
    then Denied else Granted.

Definition os_denying : Platform := fun _ _ _ => Denied.

Definition os_raising : Platform := fun _ _ _ => Raised.

(** Grants the first request only. *)
Definition os_once : Platform :=
  fun n held accelerator =>
    match n with O => os_free n held accelerator | S _ => Denied end.

(** Grants every request, also for an accelerator already held. *)
Definition os_lenient : Platform := fun _ _ _ => Granted.

Section Core.

(** The relayed overlay command is opaque to the main process. *)
Variable Cmd : Type.

Variable os : Platform.

(** [process.platform === 'darwin']. *)
Variable darwin : bool.

Inductive Payload : Type :=
| ActionName (action : jsstring)
| HotkeyMode (mode accelerator action : jsstring)
| Command (command : Cmd).

(** One [webContents.send(channel, payload)] that went through. *)
Record Message : Type := mkMessage {
  target : Surface;
  channel : jsstring;
  payload : Payload
}.

Record Store : Type := mkStore {
  registeredHotkeys : JsObject.t jsstring;   (* line 63 *)
  shortcuts : list Shortcut;                 (* the table of globalShortcut *)
  requests : nat;                            (* registration requests so far *)
  controlWin : Win;                          (* line 15 *)
  graphicsWin : Win;                         (* line 16 *)
  outbox : list Message;                     (* sends, oldest first *)
  quitting : bool;                           (* app.quit() was called *)
  stale_sends : nat   (* ghost: sends tried through a window not live *)
}.

Definition init : Store :=
  mkStore [] [] 0 Absent Absent [] false 0.

Definition M : Type -> Type := Js Store.

(** *** Store accessors *)

Definition read {A : Type} (f : Store -> A) : M A :=
  fun st => (Normal (f st), st).

Definition assign_registeredHotkeys (o : JsObject.t jsstring) : M unit :=
  fun st =>
    (Normal tt,
     mkStore o (shortcuts st) (requests st) (controlWin st) (graphicsWin st)
             (outbox st) (quitting st) (stale_sends st)).

Definition assign_shortcuts (l : list Shortcut) : M unit :=
  fun st =>
    (Normal tt,
     mkStore (registeredHotkeys st) l (requests st) (controlWin st)
             (graphicsWin st) (outbox st) (quitting st) (stale_sends st)).

Definition count_request : M unit :=
  fun st =>
    (Normal tt,
     mkStore (registeredHotkeys st) (shortcuts st) (S (requests st))
             (controlWin st) (graphicsWin st) (outbox st) (quitting st)
             (stale_sends st)).

Definition assign_windows (c g : Win) : M unit :=
  fun st =>
    (Normal tt,
     mkStore (registeredHotkeys st) (shortcuts st) (requests st) c g
             (outbox st) (quitting st) (stale_sends st)).

Definition deliver (m : Message) : M unit :=
  fun st =>
    (Normal tt,
     mkStore (registeredHotkeys st) (shortcuts st) (requests st)
             (controlWin st) (graphicsWin st) (outbox st ++ [m])
             (quitting st) (stale_sends st)).

Definition count_stale_send : M unit :=
  fun st =>
    (Normal tt,
     mkStore (registeredHotkeys st) (shortcuts st) (requests st)
             (controlWin st) (graphicsWin st) (outbox st) (quitting st)
             (S (stale_sends st))).

Definition app_quit : M unit :=
  fun st =>
    (Normal tt,
     mkStore (registeredHotkeys st) (shortcuts st) (requests st)
             (controlWin st) (graphicsWin st) (outbox st) true
             (stale_sends st)).

Definition window (w : Surface) (st : Store) : Win :=
  match w with Control => controlWin st | Graphics => graphicsWin st end.

(** *** Windows *)

(** [win && !win.isDestroyed()]. *)
Definition isLive (w : Surface) : M bool :=
  win <- read (window w) ;;
  ret (match win with Live => true | Absent | Destroyed => false end).

(** [win.webContents.send(channel, payload)]: a [TypeError] on an
    [undefined] or destroyed window. *)
Definition webContents_send (w : Surface) (ch : jsstring) (p : Payload)
  : M unit :=
  win <- read (window w) ;;
  match win with
  | Live => deliver (mkMessage w ch p)
  | Absent | Destroyed => count_stale_send ;; throw TypeError
  end.

(** *** The [globalShortcut] module of Electron *)

Definition holds (accelerator : jsstring) (e : Shortcut) : bool :=
  JsString.eqb accelerator (fst e).

Definition globalShortcut_register (accelerator action : jsstring) : M bool :=
  n <- read requests ;;
  held <- read shortcuts ;;
  count_request ;;
  match os n held accelerator with
  | Granted => assign_shortcuts (held ++ [(accelerator, action)]) ;; ret true
  | Denied => ret false
  | Raised => throw ShortcutError
  end.

Definition globalShortcut_unregister (accelerator : jsstring) : M unit :=
  held <- read shortcuts ;;
  assign_shortcuts (filter (fun e => negb (holds accelerator e)) held).

Definition globalShortcut_unregisterAll : M unit :=
  assign_shortcuts [].

(** *** Hotkey registry (lines 62-109) *)

(** The test [if (registeredHotkeys[accelerator])]. *)
(** The value of the test [if (registeredHotkeys[accelerator])]: an action
    name is a string, and a binding to the empty string is falsy; without
    an own property the lookup goes to [Object.prototype]. *)
Definition is_bound (accelerator : jsstring) (st : Store) : bool :=
  match JsObject.get (registeredHotkeys st) accelerator with
  | Some action => JsString.truthy action
  | None => inherited accelerator
  end.

Definition bound_truthy (accelerator : jsstring) : M bool :=
  read (is_bound accelerator).

(** [registeredHotkeys[accelerator] = action]. *)
Definition store_hotkey (accelerator action : jsstring) : M unit :=
  o <- read registeredHotkeys ;;
  assign_registeredHotkeys (assign o accelerator action).

(** The callback given to [globalShortcut.register] (lines 74-80). *)
Definition hotkey_callback (action : jsstring) : M unit :=
  live <- isLive Control ;;
  when live
    (webContents_send Control (js "global-hotkey-triggered")
       (ActionName action)).

(** Lines 68-71. *)
Definition release_existing (accelerator : jsstring) : M unit :=
  bound <- bound_truthy accelerator ;;
  when bound (globalShortcut_unregister accelerator).

Definition registerGlobalHotkey (accelerator action : jsstring) : M unit :=
  try_catch
    (release_existing accelerator ;;
     success <- globalShortcut_register accelerator action ;;
     if success : bool then
       store_hotkey accelerator action
     else
       store_hotkey accelerator action ;;
       live <- isLive Control ;;
       when live
         (webContents_send Control (js "hotkey-mode")
            (HotkeyMode (js "in-window") accelerator action)))
    (fun _ => store_hotkey accelerator action).

Definition unregisterGlobalHotkey (accelerator : jsstring) : M unit :=
  bound <- bound_truthy accelerator ;;
  when bound
    (globalShortcut_unregister accelerator ;;
     o <- read registeredHotkeys ;;
     assign_registeredHotkeys (JsObject.delete o accelerator)).

(** The test [if (electronAccelerator)] on a translated string. *)
Definition usable (electronAccelerator : option jsstring) : option jsstring :=
  match electronAccelerator with
  | Some a => if JsString.truthy a then Some a else None
  | None => None
  end.

(** *** Handlers (lines 123-196) *)

Definition on_register_hotkey (accelerator : option jsstring)
           (action : jsstring) : M unit :=
  match usable (convertToElectronAccelerator accelerator) with
  | Some electronAccelerator => registerGlobalHotkey electronAccelerator action
  | None => ret tt
  end.

Definition on_unregister_hotkey (accelerator : option jsstring) : M unit :=
  match usable (convertToElectronAccelerator accelerator) with
  | Some electronAccelerator => unregisterGlobalHotkey electronAccelerator
  | None => ret tt
  end.

(** The value of [hotkeys[action]] as the translator sees it: a missing,
    [null] or [undefined] entry is [None]. *)
Definition hotkey_of (hotkeys : JsObject.t (option jsstring))
           (action : jsstring) : option jsstring :=
  match JsObject.get hotkeys action with
  | Some h => h
  | None => None
  end.

(** The body of the second loop of the bulk handler (lines 149-160). *)
Definition register_entry (hotkeys : JsObject.t (option jsstring))
           (action : jsstring) : M unit :=
  match hotkey_of hotkeys action with
  | None => ret tt
  | Some hotkeyString =>
      if negb (JsString.truthy hotkeyString) then ret tt
      else
        match usable (convertToElectronAccelerator (Some hotkeyString)) with
        | Some electronAccelerator =>
            registerGlobalHotkey electronAccelerator action
        | None => ret tt   (* console.warn: failed to convert *)
        end
  end.

Definition on_register_all_hotkeys (hotkeys : JsObject.t (option jsstring))
  : M unit :=
  o <- read registeredHotkeys ;;
  forEach (JsObject.keys o) globalShortcut_unregister ;;
  assign_registeredHotkeys [] ;;
  forEach (JsObject.keys hotkeys) (register_entry hotkeys).

Definition on_graphic_command (command : Cmd) : M unit :=
  live <- isLive Graphics ;;
  when live
    (webContents_send Graphics (js "graphic-command") (Command command)).

(** The deferred pass (lines 176-184).  An own key of the copy always has
    a value. *)
Definition on_ready_timeout : M unit :=
  currentHotkeys <- read registeredHotkeys ;;
  assign_registeredHotkeys [] ;;
  forEach (JsObject.keys currentHotkeys)
    (fun accelerator =>
       match JsObject.get currentHotkeys accelerator with
       | Some action => registerGlobalHotkey accelerator action
       | None => ret tt
       end).

Definition on_window_all_closed : M unit :=
  globalShortcut_unregisterAll ;;
  when (negb darwin) app_quit.

Definition on_will_quit : M unit :=
  globalShortcut_unregisterAll.

(** The platform reports that [accelerator] was pressed: the callbacks
    registered for it run. *)
Definition hotkey_pressed (accelerator : jsstring) : M unit :=
  held <- read shortcuts ;;
  forEach (filter (holds accelerator) held)
    (fun e => hotkey_callback (snd e)).

(** [createWindows] (lines 18-60), as far as the core sees it. *)
Definition createWindows : M unit := assign_windows Live Live.

(** A window is closed. *)
Definition window_closed (w : Surface) : M unit :=
  c <- read controlWin ;;
  g <- read graphicsWin ;;
  match w with
  | Control => assign_windows (match c with Live => Destroyed | _ => c end) g
  | Graphics => assign_windows c (match g with Live => Destroyed | _ => g end)
  end.

(** *** Events of the main process *)

Inductive Event : Type :=
| Register (accelerator action : jsstring)          (* registerGlobalHotkey *)
| Unregister (accelerator : jsstring)               (* unregisterGlobalHotkey *)
| IpcRegisterHotkey (accelerator : option jsstring) (action : jsstring)
| IpcUnregisterHotkey (accelerator : option jsstring)
| IpcRegisterAllHotkeys (hotkeys : JsObject.t (option jsstring))
| IpcGraphicCommand (command : Cmd)
| ReadyTimeout
| WindowAllClosed
| WillQuit
| HotkeyPressed (accelerator : jsstring)
| CreateWindows
| WindowClosed (w : Surface).

Definition handle (ev : Event) : M unit :=
  match ev with
  | Register accelerator action => registerGlobalHotkey accelerator action
  | Unregister accelerator => unregisterGlobalHotkey accelerator
  | IpcRegisterHotkey accelerator action =>
      on_register_hotkey accelerator action
  | IpcUnregisterHotkey accelerator => on_unregister_hotkey accelerator
  | IpcRegisterAllHotkeys hotkeys => on_register_all_hotkeys hotkeys
  | IpcGraphicCommand command => on_graphic_command command
  | ReadyTimeout => on_ready_timeout
  | WindowAllClosed => on_window_all_closed
  | WillQuit => on_will_quit
  | HotkeyPressed accelerator => hotkey_pressed accelerator
  | CreateWindows => createWindows
  | WindowClosed w => window_closed w
  end.

(** The store after a run of events. *)
Fixpoint run (evs : list Event) (st : Store) : Store :=
  match evs with
  | [] => st
  | ev :: evs' => run evs' (exec (handle ev) st)
  end.

Inductive reachable : Store -> Prop :=
| reachable_init : reachable init
| reachable_step ev st : reachable st -> reachable (exec (handle ev) st).

(** *** Views used by the statements *)

(** The registrations the process holds when [registerGlobalHotkey
    accelerator _], called in [st], reaches its request (after lines
    68-71), and the answer of the platform to that request. *)
Definition held_at_request (accelerator : jsstring) (st : Store)
  : list Shortcut :=
  if is_bound accelerator st
  then filter (fun e => negb (holds accelerator e)) (shortcuts st)
  else shortcuts st.

Definition reply_to (accelerator : jsstring) (st : Store) : OsReply :=
  os (requests st) (held_at_request accelerator st) accelerator.

(** The registrations and the bindings recorded for one accelerator. *)
Definition registrations_of (accelerator : jsstring) (l : list Shortcut)
  : list Shortcut :=
  filter (holds accelerator) l.

(** The entries of a list of bindings for the other accelerators. *)
Definition others (accelerator : jsstring) (l : list Shortcut)
  : list Shortcut :=
  filter (fun e => negb (holds accelerator e)) l.

(** [st'] comes from [st] by sends that each went through a window live
    in [st]; no send was tried through a window that is not live, and
    the windows are the same. *)
Definition guarded (st st' : Store) : Prop :=
  controlWin st' = controlWin st /\ graphicsWin st' = graphicsWin st /\
  stale_sends st' = stale_sends st /\
  exists sent,
    outbox st' = outbox st ++ sent /\
    Forall (fun m => window (target m) st = Live) sent.

(** No accelerator has two bindings in the bookkeeping or two active
    registrations. *)
Definition single_binding (st : Store) : Prop :=
  NoDup (JsObject.keys (registeredHotkeys st)) /\
  NoDup (map fst (shortcuts st)).

(** The fallback notification of line 92. *)
Definition fallback_notice (accelerator action : jsstring) : Message :=
  mkMessage Control (js "hotkey-mode")
            (HotkeyMode (js "in-window") accelerator action).

(** The relayed message of line 168. *)
Definition relayed (command : Cmd) : Message :=
  mkMessage Graphics (js "graphic-command") (Command command).

(** *** The bulk replace, as the specification words it *)

(** Every accelerator of the bookkeeping is released and the bookkeeping
    is emptied. *)
Definition cleared (st : Store) : Store :=
  mkStore []
          (filter
             (fun e =>
                negb (existsb (fun k => holds k e)
                              (JsObject.keys (registeredHotkeys st))))
             (shortcuts st))
          (requests st) (controlWin st) (graphicsWin st) (outbox st)
          (quitting st) (stale_sends st).

(** The pairs that get a registration attempt, in order: those whose
    hotkey string has a non-empty translation. *)
Definition planned (hotkeys : JsObject.t (option jsstring))
  : list (jsstring * jsstring) :=
  flat_map
    (fun entry =>
       match convertToElectronAccelerator (snd entry) with
       | Some a => if JsString.truthy a then [(a, fst entry)] else []
       | None => []
       end)
    hotkeys.

Definition registerAll_spec (hotkeys : JsObject.t (option jsstring))
  : M unit :=
  fun st =>
    forEach (planned hotkeys)
            (fun b => registerGlobalHotkey (fst b) (snd b))
            (cleared st).

End Core.

(** ** Further views of the store and of the platform *)

(** A platform that answers a request for an accelerator the process
    already holds by a denial (it returns [false] and does not throw). *)
Definition denies_held (os : Platform) : Prop :=
  forall n held accelerator,
    In accelerator (map fst held) -> os n held accelerator = Denied.

(** A hotkey string the handlers pass over: absent, or made of white space
    only (the empty string included). *)
Definition blank (hotkeyString : option jsstring) : Prop :=
  match hotkeyString with
  | None => True
  | Some s => Forall (fun c => JsString.is_space c = true) s
  end.

(** An accelerator as the translator hands it to the registry: not empty
    and without white space. *)
Definition presentable (accelerator : jsstring) : Prop :=
  accelerator <> [] /\
  Forall (fun c => JsString.is_space c = false) accelerator.

(** The bookkeeping that a sequence of [registeredHotkeys[a] = action]
    stores builds from the empty object. *)
Definition bookkeeping_of (l : list (jsstring * jsstring))
  : JsObject.t jsstring :=
  fold_left (fun o b => assign o (fst b) (snd b)) l [].

Section Views.

Variable Cmd : Type.
Variable os : Platform.
Variable darwin : bool.

(** The message of line 78. *)
Definition triggered (action : jsstring) : Message Cmd :=
  mkMessage Control (js "global-hotkey-triggered") (ActionName Cmd action).

(** The three messages of the protocol: the trigger and the fallback
    notice go to the control window, the relayed command to the graphics
    window. *)
Definition routed (m : Message Cmd) : Prop :=
  match target m, payload m with
  | Control, ActionName _ _ => channel m = js "global-hotkey-triggered"
  | Control, HotkeyMode _ mode _ _ =>
      channel m = js "hotkey-mode" /\ mode = js "in-window"
  | Graphics, Command _ => channel m = js "graphic-command"
  | _, _ => False
  end.

(** Every accelerator the process holds is a key of the bookkeeping,
    but for the name [__proto__], which the bookkeeping cannot record. *)
Definition tracked (st : Store Cmd) : Prop :=
  forall accelerator,
    In accelerator (map fst (shortcuts st)) ->
    accelerator = js "__proto__" \/
    In accelerator (JsObject.keys (registeredHotkeys st)).

(** Every accelerator of the bookkeeping and of the registrations is
    presentable. *)
Definition presentable_keys (st : Store Cmd) : Prop :=
  Forall presentable (JsObject.keys (registeredHotkeys st)) /\
  Forall presentable (map fst (shortcuts st)).

(** The events that come from the renderers, the platform and the
    application, as opposed to a direct call of the two registry
    functions. *)
Definition direct_call (ev : Event Cmd) : bool :=
  match ev with
  | Register _ _ _ | Unregister _ _ => true
  | _ => false
  end.

Inductive app_reachable : Store Cmd -> Prop :=
| app_reachable_init : app_reachable (init Cmd)
| app_reachable_step ev st :
    direct_call ev = false ->
    app_reachable st ->
    app_reachable (exec (handle os darwin ev) st).

End Views.

(** * Properties *)

(** ** Strings *)

Module JsStringFacts.
Import JsString.

Lemma eqb_eq (a b : t) : eqb a b = true <-> a = b.
Proof.
  revert b; induction a as [|x a IH]; intros [|y b]; simpl;
    try (split; (discriminate || reflexivity)).
  rewrite andb_true_iff, N.eqb_eq, IH.
  split; [intros [-> ->]; reflexivity | intros H; inversion H; auto].
Qed.

Lemma eqb_refl (a : t) : eqb a a = true.
Proof. apply eqb_eq; reflexivity. Qed.

Lemma eqb_neq (a b : t) : eqb a b = false <-> a <> b.
Proof.
  rewrite <- eqb_eq. destruct (eqb a b); split; congruence.
Qed.

(** A match at the head means the pattern is a prefix. *)
Lemma starts_with_app (p s : t) :
  starts_with p s = true <-> exists rest, s = p ++ rest.
Proof.
  revert s; induction p as [|a p IH]; intros s; simpl.
  - split; [eexists; reflexivity | reflexivity].
  - destruct s as [|b s].
    + split; [discriminate | intros [rest H]; discriminate].
    + rewrite andb_true_iff, N.eqb_eq, IH. split.
      * intros [-> [rest ->]]; eexists; reflexivity.
      * intros [rest H]; inversion H; subst; split; eauto.
Qed.

(** [contains] is the substring relation. *)
Lemma contains_app (p s : t) :
  contains p s = true <-> exists before after, s = before ++ p ++ after.
Proof.
  induction s as [|c s IH]; simpl.
  - rewrite orb_false_r. rewrite starts_with_app. split.
    + intros [rest H]; exists [], rest; exact H.
    + intros [[|b before] [after H]]; [eauto | discriminate].
  - rewrite orb_true_iff, starts_with_app, IH. split.
    + intros [[rest H] | [before [after H]]].
      * exists [], rest; exact H.
      * exists (c :: before), after; rewrite H; reflexivity.
    + intros [[|b before] [after H]].
      * left; eauto.
      * right; inversion H; eauto.
Qed.

(** *** Stripping white space *)

Lemma strip_spaces_clean (s : t) :
  Forall (fun c => is_space c = false) (strip_spaces s).
Proof.
  induction s as [|c s IH]; simpl; [constructor|].
  destruct (is_space c) eqn:E; [exact IH | constructor; assumption].
Qed.

Lemma strip_spaces_id (s : t) :
  Forall (fun c => is_space c = false) s -> strip_spaces s = s.
Proof.
  induction 1 as [|c s Hc _ IH]; simpl; [reflexivity|].
  rewrite Hc, IH; reflexivity.
Qed.

(** *** Global replacement of a literal *)

Section Replace.
Variables p r : t.

Lemma replace_from_clean (skip : nat) (s : t) :
  Forall (fun c => is_space c = false) r ->
  Forall (fun c => is_space c = false) s ->
  Forall (fun c => is_space c = false) (replace_from p r skip s).
Proof.
  intros Hr Hs; revert skip.
  induction Hs as [|c s Hc Hs IH]; intros skip; simpl; [constructor|].
  destruct skip as [|k]; [|apply IH].
  destruct (starts_with p (c :: s)).
  - apply Forall_app; split; [exact Hr | apply IH].
  - constructor; [exact Hc | apply IH].
Qed.

(** A string without the pattern is left as it is. *)
Lemma replace_all_absent (s : t) :
  contains p s = false -> replace_all p r s = s.
Proof.
  unfold replace_all.
  induction s as [|c s IH]; simpl; [reflexivity|].
  intros H; apply orb_false_iff in H as [H1 H2].
  simpl in H1; rewrite H1, IH by exact H2; reflexivity.
Qed.

(** A replacement at least as long as the pattern never shortens. *)
Lemma replace_from_length (skip : nat) (s : t) :
  1 <= List.length p <= List.length r ->
  List.length s <= List.length (replace_from p r skip s) + skip.
Proof.
  intros Hp; revert skip; induction s as [|c s IH]; intros skip; simpl;
    [lia|].
  destruct skip as [|k].
  - destruct (starts_with p (c :: s)).
    + rewrite length_app. specialize (IH (List.length p - 1)). lia.
    + specialize (IH 0); simpl; lia.
  - specialize (IH k); lia.
Qed.

(** A strictly longer replacement lengthens every string that has the
    pattern. *)
Lemma replace_all_longer (s : t) :
  1 <= List.length p < List.length r ->
  contains p s = true ->
  List.length s < List.length (replace_all p r s).
Proof.
  intros Hp; unfold replace_all.
  induction s as [|c s IH]; cbn [contains replace_from].
  - rewrite orb_false_r. destruct p; [simpl in Hp; lia | discriminate].
  - intros H. destruct (starts_with p (c :: s)) eqn:E.
    + rewrite length_app.
      pose proof (@replace_from_length (List.length p - 1) s).
      cbn [List.length]. lia.
    + cbn [orb] in H. specialize (IH H). cbn [List.length]. lia.
Qed.

(** *** No match is left behind *)

(** The pattern is [a :: q], its first unit [a] does not occur again in
    [q], the replacement starts with a unit that is not in [q]
    either, and the replacement followed by anything shows the pattern
    only in what follows. *)
Variables (a : N) (q : t) (r0 : N) (r' : t).
Hypothesis p_shape : p = a :: q.
Hypothesis r_shape : r = r0 :: r'.
Hypothesis q_fresh : Forall (fun b => b <> a /\ b <> r0) q.
Hypothesis r_closed : forall x, contains p (r ++ x) = contains p x.


End Replace.

End JsStringFacts.

(** ** Accelerator translator *)

Section Translator.
Import JsString JsStringFacts.

Let clean (s : jsstring) : Prop := Forall (fun c => is_space c = false) s.

Lemma clean_no_separator (s : jsstring) :
  clean s -> contains (js " + ") s = false.
Proof.
  induction 1 as [|c s Hc _ IH]; [reflexivity|].
  cbn [contains]. rewrite IH, orb_false_r.
  change (starts_with (js " + ") (c :: s))
    with ((32 =? c)%N && starts_with (js "+ ") s).
  destruct (32 =? c)%N eqn:E; [|reflexivity].
  apply N.eqb_eq in E; subst c. discriminate Hc.
Qed.



Lemma convert_some (s t : jsstring) :
  convertToElectronAccelerator (Some s) = Some t ->
  s <> [] /\
  t = strip_spaces
        (replace_all (js " + ") (js "+")
           (replace_all (js "Meta") (js "Super")
              (replace_all (js "Ctrl") (js "CommandOrControl") s))).
Proof.
  unfold convertToElectronAccelerator.
  destruct s as [|c s]; simpl; [discriminate|].
  intros H; inversion H; split; [discriminate | reflexivity].
Qed.

Lemma convert_clean (s t : jsstring) :
  convertToElectronAccelerator (Some s) = Some t -> clean t.
Proof.
  intros H; apply convert_some in H as [_ ->]. apply strip_spaces_clean.
Qed.

(** On a string without white space only the two token stages act. *)
Lemma convert_of_clean (c : N) (t : jsstring) :
  clean (c :: t) ->
  convertToElectronAccelerator (Some (c :: t))
  = Some (replace_all (js "Meta") (js "Super")
            (replace_all (js "Ctrl") (js "CommandOrControl") (c :: t))).
Proof.
  intros Hc. unfold convertToElectronAccelerator. cbn [truthy negb].
  set (u := replace_all (js "Meta") (js "Super") _).
  assert (Hu : clean u).
  { apply replace_from_clean; [repeat constructor|].
    apply replace_from_clean; [repeat constructor | exact Hc]. }
  rewrite (@replace_all_absent (js " + ") (js "+") u (clean_no_separator Hu)).
  rewrite strip_spaces_id by exact Hu. reflexivity.
Qed.


(** C6 (amended): the translator maps its own output [t] to itself
    exactly when [t] is not empty and holds neither a ["Ctrl"] nor a
    ["Meta"] token. *)
Theorem translate_fixed_point_iff (s t : jsstring) :
  convertToElectronAccelerator (Some s) = Some t ->
  (convertToElectronAccelerator (Some t) = Some t
   <-> (t <> [] /\ contains (js "Ctrl") t = false
        /\ contains (js "Meta") t = false)).
Proof.
  intros Hs. pose proof (convert_clean _ Hs) as Hc. clear Hs. split.
  - destruct t as [|c t]; [discriminate|].
    intros H. pose proof (eq_trans (eq_sym (convert_of_clean Hc)) H) as H'.
    clear H; injection H' as H.
    split; [discriminate|].
    set (u := c :: t) in *.
    assert (L1 : List.length u
                 <= List.length
                      (replace_all (js "Ctrl") (js "CommandOrControl") u)).
    { pose proof (@replace_from_length (js "Ctrl") (js "CommandOrControl")
                    0 u ltac:(cbv; lia)) as L.
      unfold replace_all. lia. }
    assert (L2 : List.length
                   (replace_all (js "Ctrl") (js "CommandOrControl") u)
                 <= List.length u).
    { rewrite <- H at 2.
      pose proof (@replace_from_length (js "Meta") (js "Super") 0
                    (replace_all (js "Ctrl") (js "CommandOrControl") u)
                    ltac:(cbv; lia)) as L.
      unfold replace_all at 2. lia. }
    assert (C1 : contains (js "Ctrl") u = false).
    { destruct (contains (js "Ctrl") u) eqn:E; [|reflexivity].
      apply (@replace_all_longer (js "Ctrl") (js "CommandOrControl")) in E;
        [lia | cbv; lia]. }
    split; [exact C1|].
    rewrite (@replace_all_absent (js "Ctrl") (js "CommandOrControl") u C1) in H.
    destruct (contains (js "Meta") u) eqn:E; [|reflexivity].
    apply (@replace_all_longer (js "Meta") (js "Super")) in E;
      [rewrite H in E; lia | cbv; lia].
  - intros (Hne & C1 & C2). destruct t as [|c t]; [congruence|].
    refine (eq_trans (convert_of_clean Hc) _).
    rewrite (@replace_all_absent (js "Ctrl") (js "CommandOrControl") _ C1).
    rewrite (@replace_all_absent (js "Meta") (js "Super") _ C2). reflexivity.
Qed.

End Translator.

(** The canonical form of the example is a fixed point. *)
Lemma translate_fixed_point_witness :
  convertToElectronAccelerator (Some (js "Ctrl + Shift + K"))
  = Some (js "CommandOrControl+Shift+K") /\
  convertToElectronAccelerator (Some (js "CommandOrControl+Shift+K"))
  = Some (js "CommandOrControl+Shift+K").
Proof.
  split; [reflexivity|].
  apply (proj2 (@translate_fixed_point_iff (js "Ctrl + Shift + K")
                  (js "CommandOrControl+Shift+K") eq_refl)).
  split; [discriminate | split; reflexivity].
Defined.

(** C6 (as stated) fails: white space inside a token is stripped last, so
    ["Ct rl"] is translated to ["Ctrl"], which is translated further. *)
Lemma translate_not_idempotent :
  convertToElectronAccelerator (Some (js "Ct rl")) = Some (js "Ctrl") /\
  convertToElectronAccelerator (Some (js "Ctrl"))
  = Some (js "CommandOrControl") /\
  convertToElectronAccelerator (Some (js "Ctrl")) <> Some (js "Ctrl").
Proof.
  split; [reflexivity | split; [reflexivity | discriminate]].
Qed.

(** ** Objects *)

Module JsObjectFacts.
Import JsObject.

Section Facts.
Variable V : Type.
Implicit Types (o : t V) (k : jsstring) (v : V).

Lemma get_in_keys o k : get o k <> None <-> In k (keys o).
Proof.
  induction o as [|[k' v'] o IH]; simpl; [tauto|].
  destruct (JsString.eqb k k') eqn:E.
  - apply JsStringFacts.eqb_eq in E; subst. split; [auto | discriminate].
  - apply JsStringFacts.eqb_neq in E. rewrite IH.
    split; [auto | intros [H|H]; [simpl in H; congruence | exact H]].
Qed.

Lemma get_none_keys o k : get o k = None <-> ~ In k (keys o).
Proof.
  rewrite <- get_in_keys. destruct (get o k); split; intros H.
  - discriminate.
  - exfalso; apply H; discriminate.
  - intros H'; apply H'; reflexivity.
  - reflexivity.
Qed.

Lemma keys_update k v o : keys (update k v o) = keys o.
Proof.
  induction o as [|[k' v'] o IH]; simpl; [reflexivity|].
  destruct (JsString.eqb k k'); simpl; [reflexivity | rewrite IH; reflexivity].
Qed.

Lemma in_keys_create k v o k0 :
  In k0 (keys (create k v o)) <-> k0 = k \/ In k0 (keys o).
Proof.
  induction o as [|[k' v'] o IH]; simpl; [intuition congruence|].
  destruct (precedes k k'); simpl; [intuition congruence|].
  rewrite IH. intuition congruence.
Qed.

Lemma NoDup_keys_create k v o :
  ~ In k (keys o) -> NoDup (keys o) -> NoDup (keys (create k v o)).
Proof.
  induction o as [|[k' v'] o IH]; simpl; intros Hk Ho.
  - constructor; [simpl; tauto | constructor].
  - destruct (precedes k k'); simpl.
    + constructor; [simpl; tauto | exact Ho].
    + inversion Ho as [|? ? Hk' Ho']; subst.
      constructor; [|apply IH; tauto].
      rewrite in_keys_create. intros [->|H]; tauto.
Qed.

(** A store into the object keeps the keys distinct. *)
Lemma NoDup_keys_set o k v :
  NoDup (keys o) -> NoDup (keys (set o k v)).
Proof.
  unfold set. destruct (get o k) eqn:E; intros Ho.
  - rewrite keys_update; exact Ho.
  - apply NoDup_keys_create; [apply get_none_keys; exact E | exact Ho].
Qed.

Lemma in_keys_delete o k k0 :
  In k0 (keys (delete o k)) <-> k0 <> k /\ In k0 (keys o).
Proof.
  induction o as [|[k' v'] o IH]; simpl; [tauto|].
  destruct (JsString.eqb k k') eqn:E.
  - apply JsStringFacts.eqb_eq in E; subst. rewrite IH.
    intuition congruence.
  - apply JsStringFacts.eqb_neq in E. simpl. rewrite IH.
    intuition congruence.
Qed.

Lemma NoDup_keys_delete o k :
  NoDup (keys o) -> NoDup (keys (delete o k)).
Proof.
  induction o as [|[k' v'] o IH]; simpl; intros Ho; [constructor|].
  inversion Ho; subst.
  destruct (JsString.eqb k k'); simpl; [auto|].
  constructor; [rewrite in_keys_delete; tauto | auto].
Qed.

Lemma get_update_same k v o :
  get o k <> None -> get (update k v o) k = Some v.
Proof.
  induction o as [|[k' v'] o IH]; simpl; [congruence|].
  destruct (JsString.eqb k k') eqn:E; simpl; rewrite E; auto.
Qed.

Lemma get_update_other k v o k0 :
  k0 <> k -> get (update k v o) k0 = get o k0.
Proof.
  intros Hk; induction o as [|[k' v'] o IH]; simpl; [reflexivity|].
  destruct (JsString.eqb k k') eqn:E; simpl.
  - apply JsStringFacts.eqb_eq in E; subst k'.
    apply JsStringFacts.eqb_neq in Hk. rewrite Hk. reflexivity.
  - rewrite IH. reflexivity.
Qed.

Lemma get_create_same k v o :
  get o k = None -> get (create k v o) k = Some v.
Proof.
  induction o as [|[k' v'] o IH]; simpl.
  - rewrite JsStringFacts.eqb_refl; reflexivity.
  - destruct (JsString.eqb k k') eqn:E; [discriminate|]. intros H.
    destruct (precedes k k'); simpl.
    + rewrite JsStringFacts.eqb_refl; reflexivity.
    + rewrite E; auto.
Qed.

Lemma get_create_other k v o k0 :
  k0 <> k -> get (create k v o) k0 = get o k0.
Proof.
  intros Hk. apply JsStringFacts.eqb_neq in Hk.
  induction o as [|[k' v'] o IH]; simpl.
  - rewrite Hk; reflexivity.
  - destruct (precedes k k'); simpl.
    + rewrite Hk; reflexivity.
    + rewrite IH; reflexivity.
Qed.

(** [o[k] = v; o[k]] is [v]. *)
Lemma get_set_same o k v : get (set o k v) k = Some v.
Proof.
  unfold set. destruct (get o k) eqn:E.
  - apply get_update_same; congruence.
  - apply get_create_same; exact E.
Qed.

(** [o[k] = v] leaves [o[k0]] alone for another key [k0]. *)
Lemma get_set_other o k v k0 :
  k0 <> k -> get (set o k v) k0 = get o k0.
Proof.
  intros Hk. unfold set. destruct (get o k).
  - apply get_update_other; exact Hk.
  - apply get_create_other; exact Hk.
Qed.

Lemma get_delete_same o k : get (delete o k) k = None.
Proof.
  induction o as [|[k' v'] o IH]; simpl; [reflexivity|].
  destruct (JsString.eqb k k') eqn:E; simpl; [exact IH | rewrite E; exact IH].
Qed.

Lemma get_delete_other o k k0 :
  k0 <> k -> get (delete o k) k0 = get o k0.
Proof.
  intros Hk. induction o as [|[k' v'] o IH]; simpl; [reflexivity|].
  destruct (JsString.eqb k k') eqn:E; simpl.
  - apply JsStringFacts.eqb_eq in E; subst k'.
    apply JsStringFacts.eqb_neq in Hk. rewrite Hk. exact IH.
  - rewrite IH. reflexivity.
Qed.
End Facts.

End JsObjectFacts.

(** ** Assignment through the prototype *)

Section AssignFacts.
Implicit Types (o : JsObject.t jsstring) (k v : jsstring).

Lemma assign_set o k v :
  k <> js "__proto__" -> assign o k v = JsObject.set o k v.
Proof.
  intros H. unfold assign. apply JsStringFacts.eqb_neq in H. rewrite H.
  destruct (JsObject.get o k); reflexivity.
Qed.

Lemma assign_cases o k v :
  assign o k v = JsObject.set o k v \/
  (assign o k v = o /\ k = js "__proto__" /\ JsObject.get o k = None).
Proof.
  unfold assign. destruct (JsObject.get o k) eqn:E; [left; reflexivity|].
  destruct (JsString.eqb k (js "__proto__")) eqn:Ek; [|left; reflexivity].
  right. apply JsStringFacts.eqb_eq in Ek. auto.
Qed.

Lemma get_assign_same o k v :
  k <> js "__proto__" -> JsObject.get (assign o k v) k = Some v.
Proof.
  intros H. rewrite assign_set by exact H. apply JsObjectFacts.get_set_same.
Qed.

Lemma get_assign_other o k v k0 :
  k0 <> k -> JsObject.get (assign o k v) k0 = JsObject.get o k0.
Proof.
  intros H. destruct (assign_cases o k v) as [-> | [-> _]]; [|reflexivity].
  apply JsObjectFacts.get_set_other. exact H.
Qed.

(** The name [__proto__] never becomes an own key. *)
Lemma get_assign_proto o k v :
  JsObject.get o (js "__proto__") = None ->
  JsObject.get (assign o k v) (js "__proto__") = None.
Proof.
  intros H. destruct (JsString.eqb k (js "__proto__")) eqn:Ek.
  - apply JsStringFacts.eqb_eq in Ek. subst k.
    unfold assign. rewrite H. simpl. exact H.
  - apply JsStringFacts.eqb_neq in Ek.
    rewrite get_assign_other by congruence. exact H.
Qed.

Lemma NoDup_keys_assign o k v :
  NoDup (JsObject.keys o) -> NoDup (JsObject.keys (assign o k v)).
Proof.
  intros H. destruct (assign_cases o k v) as [-> | [-> _]]; [|exact H].
  apply JsObjectFacts.NoDup_keys_set. exact H.
Qed.

End AssignFacts.

(** ** Monad *)

Ltac js_unfold :=
  unfold exec, completion, when, try_catch, bind, ret, throw, read in *.

Section Preserves.
Variables (S : Type) (P : S -> Prop).

Lemma preserves_ret (A : Type) (a : A) : preserves P (ret a).
Proof. intros st H; split; [exists a; reflexivity | exact H]. Qed.

Lemma preserves_bind (A B : Type) (c : Js S A) (k : A -> Js S B) :
  preserves P c -> (forall a, preserves P (k a)) -> preserves P (bind c k).
Proof.
  intros Hc Hk st H. destruct (Hc st H) as [[a Ha] H1]. unfold bind.
  destruct (c st) as [[a'|e] st1]; simpl in *; [|discriminate].
  apply Hk. exact H1.
Qed.

Lemma preserves_when (b : bool) (c : Js S unit) :
  preserves P c -> preserves P (when b c).
Proof. destruct b; simpl; [auto | intros _; apply preserves_ret]. Qed.

Lemma preserves_forEach (A : Type) (l : list A) (f : A -> Js S unit) :
  (forall x, preserves P (f x)) -> preserves P (forEach l f).
Proof.
  intros Hf; induction l as [|x l IH]; simpl.
  - apply preserves_ret.
  - apply preserves_bind; [apply Hf | intros _; exact IH].
Qed.

(** A piece of code that only looks at the store. *)
Lemma preserves_pure (A : Type) (f : S -> A) :
  preserves P (fun st => (Normal (f st), st)).
Proof. intros st H; split; [eexists; reflexivity | exact H]. Qed.

Lemma preserves_normal (c : Js S unit) (st : S) :
  preserves P c -> P st -> completion c st = Normal tt /\ P (exec c st).
Proof.
  intros Hc H. destruct (Hc st H) as [[[] Ha] H1]. split; assumption.
Qed.
End Preserves.

(** ** Hotkey registry *)

Section CoreProperties.

Variable Cmd : Type.
Variable os : Platform.
Variable darwin : bool.

Implicit Types (st : Store Cmd) (accelerator action : jsstring).

(** *** One registration, in closed form *)

Lemma registerGlobalHotkey_eq accelerator action st :
  registerGlobalHotkey os accelerator action st
  = (Normal tt,
     mkStore
       (assign (registeredHotkeys st) accelerator action)
       (match reply_to os accelerator st with
        | Granted => held_at_request accelerator st ++ [(accelerator, action)]
        | Denied | Raised => held_at_request accelerator st
        end)
       (S (requests st)) (controlWin st) (graphicsWin st)
       (match reply_to os accelerator st, controlWin st with
        | Denied, Live => outbox st ++ [fallback_notice Cmd accelerator action]
        | _, _ => outbox st
        end)
       (quitting st) (stale_sends st)).
Proof.
  unfold registerGlobalHotkey, reply_to, held_at_request, release_existing,
    bound_truthy, globalShortcut_register, globalShortcut_unregister,
    store_hotkey, isLive, webContents_send, fallback_notice.
  js_unfold. destruct st as [o held n c g out q z]; simpl.
  destruct (is_bound accelerator _); simpl;
    match goal with |- context [os ?n ?h ?a] => destruct (os n h a) end;
    simpl; try reflexivity; destruct c; reflexivity.
Qed.

Lemma unregisterGlobalHotkey_eq accelerator st :
  unregisterGlobalHotkey accelerator st
  = (Normal tt,
     if is_bound accelerator st then
       mkStore (JsObject.delete (registeredHotkeys st) accelerator)
               (others accelerator (shortcuts st))
               (requests st) (controlWin st) (graphicsWin st) (outbox st)
               (quitting st) (stale_sends st)
     else st).
Proof.
  unfold unregisterGlobalHotkey, bound_truthy, globalShortcut_unregister,
    others.
  js_unfold. destruct (is_bound accelerator st); destruct st; reflexivity.
Qed.

Lemma on_graphic_command_eq (command : Cmd) st :
  on_graphic_command command st
  = (Normal tt,
     match graphicsWin st with
     | Live =>
         mkStore (registeredHotkeys st) (shortcuts st) (requests st)
                 (controlWin st) (graphicsWin st)
                 (outbox st ++ [relayed command])
                 (quitting st) (stale_sends st)
     | Absent | Destroyed => st
     end).
Proof.
  unfold on_graphic_command, isLive, webContents_send, relayed, deliver.
  js_unfold. simpl. destruct (graphicsWin st) eqn:E; simpl;
    rewrite ?E; reflexivity.
Qed.

Lemma hotkey_callback_eq action st :
  hotkey_callback action st
  = (Normal tt,
     match controlWin st with
     | Live =>
         mkStore (registeredHotkeys st) (shortcuts st) (requests st)
                 (controlWin st) (graphicsWin st)
                 (outbox st ++
                  [mkMessage Control (js "global-hotkey-triggered")
                             (ActionName Cmd action)])
                 (quitting st) (stale_sends st)
     | Absent | Destroyed => st
     end).
Proof.
  unfold hotkey_callback, isLive, webContents_send, deliver.
  js_unfold. simpl. destruct (controlWin st) eqn:E; simpl;
    rewrite ?E; reflexivity.
Qed.

Lemma others_update accelerator action (o : JsObject.t jsstring) :
  others accelerator (JsObject.update accelerator action o)
  = others accelerator o.
Proof.
  unfold others, holds.
  induction o as [|[k' v'] o IH]; simpl; [reflexivity|].
  destruct (JsString.eqb accelerator k') eqn:E; simpl; rewrite E; simpl;
    [reflexivity | rewrite IH; reflexivity].
Qed.

Lemma others_create accelerator action (o : JsObject.t jsstring) :
  others accelerator (JsObject.create accelerator action o)
  = others accelerator o.
Proof.
  unfold others, holds.
  induction o as [|[k' v'] o IH]; simpl.
  - rewrite JsStringFacts.eqb_refl; reflexivity.
  - destruct (JsObject.precedes accelerator k'); simpl.
    + rewrite JsStringFacts.eqb_refl; reflexivity.
    + rewrite IH; reflexivity.
Qed.

Lemma others_set accelerator action (o : JsObject.t jsstring) :
  others accelerator (JsObject.set o accelerator action)
  = others accelerator o.
Proof.
  unfold JsObject.set. destruct (JsObject.get o accelerator);
    [apply others_update | apply others_create].
Qed.

Lemma others_delete accelerator (o : JsObject.t jsstring) :
  others accelerator (JsObject.delete o accelerator) = others accelerator o.
Proof.
  unfold others, holds.
  induction o as [|[k' v'] o IH]; simpl; [reflexivity|].
  destruct (JsString.eqb accelerator k') eqn:E; simpl;
    [exact IH | rewrite E; simpl; rewrite IH; reflexivity].
Qed.

(** *** Registration that throws or is denied *)

Lemma others_assign accelerator action (o : JsObject.t jsstring) :
  others accelerator (assign o accelerator action) = others accelerator o.
Proof.
  destruct (assign_cases o accelerator action) as [-> | [-> _]];
    [apply others_set | reflexivity].
Qed.

(** C1 (amended): for every accelerator but the name [__proto__], when
    the registration request throws, the binding is recorded in the
    bookkeeping, by the same store as on a denial, no registration becomes
    active, and the call returns normally. *)
Theorem register_throw_recorded accelerator action st :
  accelerator <> js "__proto__" ->
  reply_to os accelerator st = Raised ->
  completion (registerGlobalHotkey os accelerator action) st = Normal tt /\
  registeredHotkeys (exec (registerGlobalHotkey os accelerator action) st)
  = JsObject.set (registeredHotkeys st) accelerator action /\
  JsObject.get
    (registeredHotkeys (exec (registerGlobalHotkey os accelerator action) st))
    accelerator
  = Some action /\
  shortcuts (exec (registerGlobalHotkey os accelerator action) st)
  = held_at_request accelerator st.
Proof.
  intros Hp H. unfold completion, exec. rewrite registerGlobalHotkey_eq. simpl.
  rewrite H. repeat split.
  - apply assign_set. exact Hp.
  - apply get_assign_same. exact Hp.
Qed.

(** C4 (amended): for every accelerator but the name [__proto__], when
    the registration request is denied, the call returns normally, the
    binding is in the bookkeeping, and the control window gets exactly one
    [hotkey-mode] notification [{ mode: "in-window", accelerator, action }]
    if it is live, none if it is absent or destroyed. *)
Theorem register_denied_fallback accelerator action st :
  accelerator <> js "__proto__" ->
  reply_to os accelerator st = Denied ->
  completion (registerGlobalHotkey os accelerator action) st = Normal tt /\
  JsObject.get
    (registeredHotkeys (exec (registerGlobalHotkey os accelerator action) st))
    accelerator
  = Some action /\
  outbox (exec (registerGlobalHotkey os accelerator action) st)
  = outbox st ++
    match controlWin st with
    | Live => [fallback_notice Cmd accelerator action]
    | Absent | Destroyed => []
    end.
Proof.
  intros Hp H. unfold completion, exec. rewrite registerGlobalHotkey_eq. simpl.
  rewrite H. repeat split.
  - apply get_assign_same. exact Hp.
  - destruct (controlWin st); [ | reflexivity | ];
      rewrite app_nil_r; reflexivity.
Qed.

(** The store of lines 83, 88 and 98 under the name [__proto__] is taken
    by the setter of [Object.prototype]: whatever the platform answers,
    the bookkeeping stays as it was, and the test of lines 69 and 104 is
    truthy before and after. *)
Remark proto_binding_not_recorded action st :
  JsObject.get (registeredHotkeys st) (js "__proto__") = None ->
  registeredHotkeys (exec (registerGlobalHotkey os (js "__proto__") action) st)
  = registeredHotkeys st /\
  is_bound (js "__proto__") st = true /\
  is_bound (js "__proto__")
           (exec (registerGlobalHotkey os (js "__proto__") action) st) = true.
Proof.
  intros H. unfold exec. rewrite registerGlobalHotkey_eq. simpl.
  unfold is_bound, assign. simpl. rewrite H. simpl. rewrite H.
  repeat split.
Qed.

(** *** Command relay *)

(** C8: the relay sends the command, as it is, once to the graphics
    window when that window is live, sends nothing when it is absent or
    destroyed, returns normally in both cases and changes nothing else. *)
Theorem relay_delivers_once (command : Cmd) st :
  on_graphic_command command st
  = (Normal tt,
     match graphicsWin st with
     | Live =>
         mkStore (registeredHotkeys st) (shortcuts st) (requests st)
                 (controlWin st) (graphicsWin st)
                 (outbox st ++ [relayed command])
                 (quitting st) (stale_sends st)
     | Absent | Destroyed => st
     end).
Proof. apply on_graphic_command_eq. Qed.

(** *** Frame *)

(** C10: registering or unregistering [accelerator] leaves the
    bookkeeping entries of every other accelerator as they were (their
    values and their order), and a relayed command leaves the whole
    bookkeeping as it was. *)
Theorem registry_frame accelerator other action (command : Cmd) st :
  other <> accelerator ->
  (others accelerator
     (registeredHotkeys (exec (registerGlobalHotkey os accelerator action) st))
   = others accelerator (registeredHotkeys st) /\
   JsObject.get
     (registeredHotkeys (exec (registerGlobalHotkey os accelerator action) st))
     other
   = JsObject.get (registeredHotkeys st) other) /\
  (others accelerator
     (registeredHotkeys (exec (unregisterGlobalHotkey accelerator) st))
   = others accelerator (registeredHotkeys st) /\
   JsObject.get
     (registeredHotkeys (exec (unregisterGlobalHotkey accelerator) st)) other
   = JsObject.get (registeredHotkeys st) other) /\
  registeredHotkeys (exec (on_graphic_command command) st)
  = registeredHotkeys st.
Proof.
  intros Hne. unfold exec.
  rewrite registerGlobalHotkey_eq, unregisterGlobalHotkey_eq,
    on_graphic_command_eq. simpl.
  repeat split.
  - apply others_assign.
  - apply get_assign_other; exact Hne.
  - destruct (is_bound accelerator st); [apply others_delete | reflexivity].
  - destruct (is_bound accelerator st);
      [apply JsObjectFacts.get_delete_other; exact Hne | reflexivity].
  - destruct (graphicsWin st); reflexivity.
Qed.

(** *** Shutdown *)

(** C2 (amended): each shutdown handler releases every registration of
    the process and returns normally; it leaves the bookkeeping as it
    was; run a second time in a row it returns normally again and changes
    nothing. *)
Theorem shutdown_releases_shortcuts st :
  (completion (@on_will_quit Cmd) st = Normal tt /\
   shortcuts (exec (@on_will_quit Cmd) st) = [] /\
   registeredHotkeys (exec (@on_will_quit Cmd) st) = registeredHotkeys st /\
   completion (@on_will_quit Cmd) (exec (@on_will_quit Cmd) st) = Normal tt /\
   exec (@on_will_quit Cmd) (exec (@on_will_quit Cmd) st) = exec (@on_will_quit Cmd) st) /\
  (completion (@on_window_all_closed Cmd darwin) st = Normal tt /\
   shortcuts (exec (@on_window_all_closed Cmd darwin) st) = [] /\
   registeredHotkeys (exec (@on_window_all_closed Cmd darwin) st)
   = registeredHotkeys st /\
   completion (@on_window_all_closed Cmd darwin)
              (exec (@on_window_all_closed Cmd darwin) st) = Normal tt /\
   exec (@on_window_all_closed Cmd darwin) (exec (@on_window_all_closed Cmd darwin) st)
   = exec (@on_window_all_closed Cmd darwin) st).
Proof.
  unfold on_will_quit, on_window_all_closed, globalShortcut_unregisterAll,
    assign_shortcuts, app_quit.
  js_unfold. destruct darwin; simpl; repeat split.
Qed.

(** *** Liveness of the target of every send *)

Lemma guarded_refl st : guarded st st.
Proof.
  repeat split. exists []. rewrite app_nil_r. split; [reflexivity|constructor].
Qed.

Lemma guarded_trans st0 st1 st2 :
  guarded st0 st1 -> guarded st1 st2 -> guarded st0 st2.
Proof.
  intros (c1 & g1 & z1 & sent1 & o1 & F1) (c2 & g2 & z2 & sent2 & o2 & F2).
  repeat split; try congruence.
  exists (sent1 ++ sent2). split.
  - rewrite o2, o1, app_assoc. reflexivity.
  - apply Forall_app; split; [exact F1|].
    eapply Forall_impl; [|exact F2]. intros m.
    unfold window. destruct (target m); congruence.
Qed.

(** A guarded step from any store keeps every [guarded st0]. *)
Lemma guarded_step (A : Type) (c : M Cmd A) :
  (forall st, (exists a, fst (c st) = Normal a) /\ guarded st (snd (c st))) ->
  forall st0, preserves (guarded st0) c.
Proof.
  intros Hc st0 st H. destruct (Hc st) as [Ha Hg].
  split; [exact Ha | eapply guarded_trans; eassumption].
Qed.

Lemma guarded_send (w : Surface) (ch : jsstring) (p : Payload Cmd) st0 :
  preserves (guarded st0)
    (live <- isLive w ;; when live (webContents_send w ch p)).
Proof.
  apply guarded_step. intros st.
  unfold isLive, webContents_send, deliver. js_unfold.
  destruct (window w st) eqn:E; simpl; rewrite ?E; simpl;
    (split; [eexists; reflexivity|]); try apply guarded_refl.
  repeat split. eexists; split; [reflexivity|].
  repeat constructor. exact E.
Qed.

Lemma guarded_register accelerator action st0 :
  preserves (guarded st0) (registerGlobalHotkey os accelerator action).
Proof.
  apply guarded_step. intros st. rewrite registerGlobalHotkey_eq. simpl.
  split; [eexists; reflexivity|]. repeat split; simpl.
  destruct (reply_to os accelerator st);
    try (exists []; rewrite app_nil_r; split; [reflexivity|constructor]).
  destruct (controlWin st) eqn:E;
    try (exists []; rewrite app_nil_r; split; [reflexivity|constructor]).
  eexists; split; [reflexivity|]. repeat constructor. exact E.
Qed.

Lemma guarded_unregister accelerator st0 :
  preserves (guarded st0) (unregisterGlobalHotkey (Cmd:=Cmd) accelerator).
Proof.
  apply guarded_step. intros st. rewrite unregisterGlobalHotkey_eq. simpl.
  split; [eexists; reflexivity|].
  destruct (is_bound accelerator st); [|apply guarded_refl].
  repeat split; simpl. exists []; rewrite app_nil_r.
  split; [reflexivity|constructor].
Qed.

Lemma guarded_assign_registeredHotkeys (o : JsObject.t jsstring) st0 :
  preserves (guarded st0) (assign_registeredHotkeys (Cmd:=Cmd) o).
Proof.
  apply guarded_step. intros st. split; [eexists; reflexivity|].
  repeat split; simpl. exists []; rewrite app_nil_r.
  split; [reflexivity|constructor].
Qed.

Lemma guarded_assign_shortcuts (l : list Shortcut) st0 :
  preserves (guarded st0) (assign_shortcuts (Cmd:=Cmd) l).
Proof.
  apply guarded_step. intros st. split; [eexists; reflexivity|].
  repeat split; simpl. exists []; rewrite app_nil_r.
  split; [reflexivity|constructor].
Qed.

Lemma guarded_unregister_shortcut accelerator st0 :
  preserves (guarded st0) (globalShortcut_unregister (Cmd:=Cmd) accelerator).
Proof.
  unfold globalShortcut_unregister. apply preserves_bind.
  - apply preserves_pure.
  - intros held. apply guarded_assign_shortcuts.
Qed.

Lemma guarded_handle ev st0 :
  match ev with
  | CreateWindows _ | WindowClosed _ _ => True
  | _ => preserves (guarded st0) (handle os darwin ev)
  end.
Proof.
  destruct ev; simpl; try exact I.
  - apply guarded_register.
  - apply guarded_unregister.
  - unfold on_register_hotkey.
    destruct (usable _); [apply guarded_register | apply preserves_ret].
  - unfold on_unregister_hotkey.
    destruct (usable _); [apply guarded_unregister | apply preserves_ret].
  - unfold on_register_all_hotkeys.
    apply preserves_bind; [apply preserves_pure | intros o].
    apply preserves_bind;
      [apply preserves_forEach; intros x; apply guarded_unregister_shortcut|].
    intros _. apply preserves_bind;
      [apply guarded_assign_registeredHotkeys | intros _].
    apply preserves_forEach. intros x. unfold register_entry.
    destruct (hotkey_of hotkeys x) as [h|]; [|apply preserves_ret].
    destruct (negb (JsString.truthy h)); [apply preserves_ret|].
    destruct (usable _); [apply guarded_register | apply preserves_ret].
  - apply guarded_send.
  - unfold on_ready_timeout.
    apply preserves_bind; [apply preserves_pure | intros o].
    apply preserves_bind;
      [apply guarded_assign_registeredHotkeys | intros _].
    apply preserves_forEach. intros x.
    destruct (JsObject.get o x); [apply guarded_register | apply preserves_ret].
  - unfold on_window_all_closed.
    apply preserves_bind; [apply guarded_assign_shortcuts | intros _].
    apply preserves_when. apply guarded_step. intros st.
    split; [eexists; reflexivity|]. repeat split; simpl.
    exists []; rewrite app_nil_r. split; [reflexivity|constructor].
  - apply guarded_assign_shortcuts.
  - unfold hotkey_pressed.
    apply preserves_bind; [apply preserves_pure | intros held].
    apply preserves_forEach. intros x. apply guarded_send.
Qed.

(** C9: every handler of the core returns normally and never tries a send
    through a window that is absent or destroyed: each message it sends
    went through a window that was live; the hotkey callback, the
    fallback notice and the relay send exactly when their window is
    live. *)
Theorem sends_are_guarded :
  (forall ev st,
      completion (handle os darwin ev) st = Normal tt /\
      stale_sends (exec (handle os darwin ev) st) = stale_sends st /\
      exists sent,
        outbox (exec (handle os darwin ev) st) = outbox st ++ sent /\
        Forall (fun m => window (target m) st = Live) sent) /\
  (forall action st,
      completion (hotkey_callback action) st = Normal tt /\
      stale_sends (exec (hotkey_callback action) st) = stale_sends st /\
      outbox (exec (hotkey_callback action) st)
      = outbox st ++
        match controlWin st with
        | Live => [mkMessage Control (js "global-hotkey-triggered")
                             (ActionName Cmd action)]
        | Absent | Destroyed => []
        end) /\
  (forall accelerator action st,
      stale_sends (exec (registerGlobalHotkey os accelerator action) st)
      = stale_sends st /\
      outbox (exec (registerGlobalHotkey os accelerator action) st)
      = outbox st ++
        match reply_to os accelerator st, controlWin st with
        | Denied, Live => [fallback_notice Cmd accelerator action]
        | _, _ => []
        end) /\
  (forall (command : Cmd) st,
      completion (on_graphic_command command) st = Normal tt /\
      stale_sends (exec (on_graphic_command command) st) = stale_sends st /\
      outbox (exec (on_graphic_command command) st)
      = outbox st ++
        match graphicsWin st with
        | Live => [relayed command]
        | Absent | Destroyed => []
        end).
Proof.
  split; [|split; [|split]].
  - intros ev st.
    assert (Hwin : forall c : M Cmd unit,
               completion c st = Normal tt ->
               stale_sends (exec c st) = stale_sends st ->
               outbox (exec c st) = outbox st ->
               completion c st = Normal tt /\
               stale_sends (exec c st) = stale_sends st /\
               exists sent,
                 outbox (exec c st) = outbox st ++ sent /\
                 Forall (fun m => window (target m) st = Live) sent).
    { intros c H1 H2 H3. repeat split; try assumption.
      exists []. rewrite app_nil_r. split; [assumption|constructor]. }
    pose proof (guarded_handle ev st) as H.
    destruct ev;
      try (destruct (@preserves_normal _ _ _ st H (guarded_refl st))
            as [Hc (_ & _ & Hz & Hs)];
           repeat split; assumption).
    + apply Hwin; reflexivity.
    + apply Hwin; destruct w; reflexivity.
  - intros action st. unfold completion, exec.
    rewrite hotkey_callback_eq. simpl.
    destruct (controlWin st); simpl; rewrite ?app_nil_r; repeat split.
  - intros accelerator action st. unfold exec.
    rewrite registerGlobalHotkey_eq. simpl. split; [reflexivity|].
    destruct (reply_to os accelerator st); rewrite ?app_nil_r; try reflexivity.
    destruct (controlWin st); rewrite ?app_nil_r; reflexivity.
  - intros command st. unfold completion, exec.
    rewrite on_graphic_command_eq. simpl.
    destruct (graphicsWin st); simpl; rewrite ?app_nil_r; repeat split.
Qed.

(** *** One binding and one registration per accelerator *)

Lemma NoDup_map_fst_filter (f : Shortcut -> bool) (l : list Shortcut) :
  NoDup (map fst l) -> NoDup (map fst (filter f l)).
Proof.
  induction l as [|e l IH]; simpl; intros H; [constructor|].
  inversion H as [|? ? Hin Hl]; subst.
  destruct (f e); simpl; [|auto].
  constructor; [|auto]. intros Hc. apply Hin.
  apply in_map_iff in Hc as [x [Hx Hf]]. apply filter_In in Hf as [Hf _].
  apply in_map_iff. exists x. split; assumption.
Qed.

Lemma NoDup_snoc (A : Type) (l : list A) (a : A) :
  NoDup l -> ~ In a l -> NoDup (l ++ [a]).
Proof.
  induction l as [|x l IH]; simpl; intros Hl Ha.
  - constructor; [tauto | constructor].
  - inversion Hl; subst. constructor; [|apply IH; tauto].
    rewrite in_app_iff. simpl. intros [H|[H|[]]]; [tauto|].
    apply Ha. left. symmetry. exact H.
Qed.

Lemma registrations_of_others accelerator (l : list Shortcut) :
  registrations_of accelerator (others accelerator l) = [].
Proof.
  unfold registrations_of, others.
  induction l as [|e l IH]; simpl; [reflexivity|].
  destruct (holds accelerator e) eqn:E; simpl; [exact IH|].
  rewrite E. exact IH.
Qed.

Lemma registrations_of_app accelerator (l1 l2 : list Shortcut) :
  registrations_of accelerator (l1 ++ l2)
  = registrations_of accelerator l1 ++ registrations_of accelerator l2.
Proof. apply filter_app. Qed.

Lemma registrations_of_absent accelerator (l : list Shortcut) :
  ~ In accelerator (map fst l) -> registrations_of accelerator l = [].
Proof.
  unfold registrations_of, holds.
  induction l as [|[k v] l IH]; simpl; [reflexivity|]. intros H.
  destruct (JsString.eqb accelerator k) eqn:E.
  - apply JsStringFacts.eqb_eq in E. subst. tauto.
  - apply IH. tauto.
Qed.

(** With distinct keys, the bindings recorded for a bound key are the one
    binding [get] reads. *)
Lemma registrations_of_bound accelerator action (o : JsObject.t jsstring) :
  NoDup (JsObject.keys o) ->
  JsObject.get o accelerator = Some action ->
  registrations_of accelerator o = [(accelerator, action)].
Proof.
  unfold registrations_of, holds.
  induction o as [|[k v] o IH]; simpl; [discriminate|].
  intros Hn Hg. inversion Hn as [|? ? Hk Ho]; subst.
  destruct (JsString.eqb accelerator k) eqn:E.
  - apply JsStringFacts.eqb_eq in E. subst k. injection Hg as ->.
    f_equal. apply registrations_of_absent. exact Hk.
  - apply IH; assumption.
Qed.

Section Contract.
Hypothesis os_refuses_held : refuses_held os.

Lemma single_binding_register accelerator action :
  preserves (@single_binding Cmd)
            (registerGlobalHotkey os accelerator action).
Proof.
  intros st [Ho Hs]. rewrite registerGlobalHotkey_eq. simpl.
  split; [eexists; reflexivity|]. split; simpl.
  - apply NoDup_keys_assign. exact Ho.
  - assert (Hh : NoDup (map fst (held_at_request accelerator st))).
    { unfold held_at_request. destruct (is_bound accelerator st);
        [apply NoDup_map_fst_filter|]; exact Hs. }
    destruct (reply_to os accelerator st) eqn:E; try exact Hh.
    rewrite map_app. simpl. apply NoDup_snoc; [exact Hh|].
    intros Hin. exact (os_refuses_held Hin E).
Qed.

Lemma single_binding_unregister accelerator :
  preserves (@single_binding Cmd) (unregisterGlobalHotkey accelerator).
Proof.
  intros st [Ho Hs]. rewrite unregisterGlobalHotkey_eq. simpl.
  split; [eexists; reflexivity|].
  destruct (is_bound accelerator st); [|split; assumption].
  split; simpl.
  - apply JsObjectFacts.NoDup_keys_delete. exact Ho.
  - apply NoDup_map_fst_filter. exact Hs.
Qed.

Lemma single_binding_assign_registeredHotkeys (o : JsObject.t jsstring) :
  NoDup (JsObject.keys o) ->
  preserves (@single_binding Cmd) (assign_registeredHotkeys o).
Proof.
  intros Hn st [Ho Hs]. split; [eexists; reflexivity|]. split; assumption.
Qed.

Lemma single_binding_unregister_shortcut accelerator :
  preserves (@single_binding Cmd) (globalShortcut_unregister accelerator).
Proof.
  intros st [Ho Hs]. split; [eexists; reflexivity|]. split; simpl;
    [exact Ho | apply NoDup_map_fst_filter; exact Hs].
Qed.

Lemma single_binding_unregisterAll :
  preserves (@single_binding Cmd) (@globalShortcut_unregisterAll Cmd).
Proof.
  intros st [Ho Hs]. split; [eexists; reflexivity|]. split; simpl;
    [exact Ho | constructor].
Qed.

Lemma single_binding_handle ev :
  preserves (@single_binding Cmd) (handle os darwin ev).
Proof.
  destruct ev; simpl.
  - apply single_binding_register.
  - apply single_binding_unregister.
  - unfold on_register_hotkey.
    destruct (usable _); [apply single_binding_register | apply preserves_ret].
  - unfold on_unregister_hotkey.
    destruct (usable _);
      [apply single_binding_unregister | apply preserves_ret].
  - unfold on_register_all_hotkeys.
    apply preserves_bind; [apply preserves_pure | intros o].
    apply preserves_bind;
      [apply preserves_forEach; intros x;
       apply single_binding_unregister_shortcut|].
    intros _. apply preserves_bind;
      [apply single_binding_assign_registeredHotkeys; constructor|].
    intros _. apply preserves_forEach. intros x. unfold register_entry.
    destruct (hotkey_of hotkeys x) as [h|]; [|apply preserves_ret].
    destruct (negb (JsString.truthy h)); [apply preserves_ret|].
    destruct (usable _); [apply single_binding_register | apply preserves_ret].
  - intros st H. rewrite on_graphic_command_eq. simpl.
    split; [eexists; reflexivity|].
    destruct (graphicsWin st); exact H.
  - unfold on_ready_timeout.
    apply preserves_bind; [apply preserves_pure | intros o].
    apply preserves_bind;
      [apply single_binding_assign_registeredHotkeys; constructor|].
    intros _. apply preserves_forEach. intros x.
    destruct (JsObject.get o x);
      [apply single_binding_register | apply preserves_ret].
  - unfold on_window_all_closed.
    apply preserves_bind; [apply single_binding_unregisterAll | intros _].
    apply preserves_when. intros st H.
    split; [eexists; reflexivity | exact H].
  - apply single_binding_unregisterAll.
  - unfold hotkey_pressed.
    apply preserves_bind; [apply preserves_pure | intros held].
    apply preserves_forEach. intros x st H.
    rewrite hotkey_callback_eq. simpl.
    split; [eexists; reflexivity|].
    destruct (controlWin st); exact H.
  - intros st H. split; [eexists; reflexivity | exact H].
  - intros st H. split; [destruct w; eexists; reflexivity|].
    destruct w; exact H.
Qed.

Lemma reachable_single_binding st :
  reachable os darwin st -> single_binding st.
Proof.
  induction 1 as [|ev st _ IH].
  - split; constructor.
  - apply (single_binding_handle ev). exact IH.
Qed.
End Contract.

(** C3 (amended): on a platform that does not grant an accelerator the
    process already holds, every reachable store has at most one binding
    and at most one active registration per accelerator; for every
    accelerator [A] but the name [__proto__], after [register(A, "foo")]
    and [register(A, "bar")] the bookkeeping holds exactly one binding for
    [A], to ["bar"], and the process holds exactly one registration for
    [A] (with the callback for ["bar"]) if the second request was granted,
    none if it was denied or threw. *)
Theorem registry_single_binding :
  refuses_held os ->
  (forall st, reachable os darwin st -> single_binding st) /\
  (forall st accelerator,
      reachable os darwin st ->
      accelerator <> js "__proto__" ->
      let st1 := exec (registerGlobalHotkey os accelerator (js "foo")) st in
      let st2 := exec (registerGlobalHotkey os accelerator (js "bar")) st1 in
      registrations_of accelerator (registeredHotkeys st2)
      = [(accelerator, js "bar")] /\
      JsObject.get (registeredHotkeys st2) accelerator = Some (js "bar") /\
      registrations_of accelerator (shortcuts st2)
      = match reply_to os accelerator st1 with
        | Granted => [(accelerator, js "bar")]
        | Denied | Raised => []
        end).
Proof.
  intros Hos. split; [apply reachable_single_binding; exact Hos|].
  intros st accelerator Hr Hp st1 st2.
  assert (H2 : reachable os darwin st2).
  { change (reachable os darwin
              (exec (handle os darwin (Register Cmd accelerator (js "bar")))
                 (exec (handle os darwin
                          (Register Cmd accelerator (js "foo"))) st))).
    do 2 constructor. exact Hr. }
  apply (reachable_single_binding Hos) in H2 as [Hk _].
  assert (Hget : JsObject.get (registeredHotkeys st2) accelerator
                 = Some (js "bar")).
  { subst st2. unfold exec at 1. rewrite registerGlobalHotkey_eq. simpl.
    apply get_assign_same. exact Hp. }
  split; [apply registrations_of_bound; assumption|].
  split; [exact Hget|].
  assert (Hb : is_bound accelerator st1 = true).
  { unfold is_bound. subst st1. unfold exec.
    rewrite registerGlobalHotkey_eq. simpl.
    rewrite get_assign_same by exact Hp. reflexivity. }
  subst st2. unfold exec at 1. rewrite registerGlobalHotkey_eq. simpl.
  assert (Hh : registrations_of accelerator (held_at_request accelerator st1)
               = []).
  { unfold held_at_request. rewrite Hb. apply registrations_of_others. }
  destruct (reply_to os accelerator st1); try exact Hh.
  rewrite registrations_of_app, Hh. simpl. unfold holds. simpl.
  rewrite JsStringFacts.eqb_refl. reflexivity.
Qed.

(** *** Bulk replace *)

Lemma forEach_unregister_eq (l : list jsstring) st :
  forEach l (globalShortcut_unregister (Cmd:=Cmd)) st
  = (Normal tt,
     mkStore (registeredHotkeys st)
             (filter (fun e => negb (existsb (fun k => holds k e) l))
                     (shortcuts st))
             (requests st) (controlWin st) (graphicsWin st) (outbox st)
             (quitting st) (stale_sends st)).
Proof.
  revert st; induction l as [|k l IH]; intros st.
  - simpl. unfold ret. f_equal. destruct st; simpl. f_equal.
    symmetry. apply forallb_filter_id. apply forallb_forall. reflexivity.
  - cbn [forEach]. unfold bind at 1.
    unfold globalShortcut_unregister at 1. js_unfold. simpl.
    rewrite IH. simpl. f_equal. f_equal.
    induction (shortcuts st) as [|e held IHh]; simpl; [reflexivity|].
    destruct (holds k e); simpl; [exact IHh|].
    destruct (existsb (fun k0 => holds k0 e) l); simpl;
      [exact IHh | rewrite IHh; reflexivity].
Qed.

Lemma get_of_entry (V : Type) (o : JsObject.t V) (k : jsstring) (v : V) :
  NoDup (JsObject.keys o) -> In (k, v) o -> JsObject.get o k = Some v.
Proof.
  induction o as [|[k' v'] o IH]; simpl; [tauto|].
  intros Hn Hin. inversion Hn as [|? ? Hk Ho]; subst.
  destruct Hin as [Heq|Hin].
  - injection Heq as -> ->. rewrite JsStringFacts.eqb_refl. reflexivity.
  - destruct (JsString.eqb k k') eqn:E; [|auto].
    apply JsStringFacts.eqb_eq in E; subst k'. exfalso. apply Hk.
    apply in_map_iff. exists (k, v). split; [reflexivity | exact Hin].
Qed.

(** The second loop of the bulk handler attempts exactly the planned
    pairs. *)
Lemma register_entries_planned (hotkeys l : JsObject.t (option jsstring)) st :
  (forall k h, In (k, h) l -> JsObject.get hotkeys k = Some h) ->
  forEach (JsObject.keys l) (register_entry os hotkeys) st
  = forEach (planned l)
            (fun b => registerGlobalHotkey os (fst b) (snd b)) st.
Proof.
  revert st; induction l as [|[k h] l IH]; intros st Hl; [reflexivity|].
  cbn [JsObject.keys map fst forEach planned flat_map snd].
  assert (IH' : forall st',
             forEach (JsObject.keys l) (register_entry os hotkeys) st'
             = forEach (planned l)
                 (fun b => registerGlobalHotkey os (fst b) (snd b)) st').
  { intros st'. apply IH. intros k0 h0 H0. apply Hl. right. exact H0. }
  unfold bind at 1. unfold register_entry at 1, hotkey_of.
  rewrite (Hl k h (or_introl eq_refl)).
  destruct h as [[|c hs]|]; simpl; try (unfold ret; apply IH').
  destruct (JsString.truthy _); simpl.
  - unfold bind. destruct (registerGlobalHotkey _ _ _ _) as [[[]|e] st1];
      [apply IH' | reflexivity].
  - unfold ret. apply IH'.
Qed.

(** Every registration call makes one request. *)
Lemma forEach_register_requests (l : list (jsstring * jsstring)) st :
  completion
    (forEach l (fun b => registerGlobalHotkey os (fst b) (snd b))) st
  = Normal tt /\
  requests
    (exec (forEach l (fun b => registerGlobalHotkey os (fst b) (snd b))) st)
  = requests st + List.length l.
Proof.
  revert st; induction l as [|b l IH]; intros st.
  - simpl. unfold completion, exec, ret. simpl. split; [reflexivity | lia].
  - cbn [forEach]. unfold completion, exec, bind.
    rewrite registerGlobalHotkey_eq.
    match goal with
    | |- context [forEach l ?f ?s] => destruct (IH s) as [Hc Hn]
    end.
    unfold completion, exec in Hc, Hn. split; [exact Hc|].
    rewrite Hn. simpl. lia.
Qed.

Lemma on_register_all_hotkeys_eq (hotkeys : JsObject.t (option jsstring)) st :
  on_register_all_hotkeys os hotkeys st
  = forEach (JsObject.keys hotkeys) (register_entry os hotkeys) (cleared st).
Proof.
  unfold on_register_all_hotkeys. unfold bind at 1, read.
  unfold bind at 1. rewrite forEach_unregister_eq.
  unfold bind at 1. reflexivity.
Qed.

(** C5 (amended): the bulk handler releases every accelerator of the
    bookkeeping and empties the bookkeeping, then calls [register] on the
    translation of every pair, in order, except the pairs whose hotkey
    string is empty or absent and the pairs whose translation is empty
    (a string of white space): these get no registration request.  It
    returns normally.  [registerAll({})] leaves the bookkeeping empty and
    [registerAll({ play: "", stop: "Ctrl + S" })] leaves the one binding
    of ["CommandOrControl+S"], to [stop]. *)
Theorem register_all_refines (hotkeys : JsObject.t (option jsstring)) st :
  NoDup (JsObject.keys hotkeys) ->
  on_register_all_hotkeys os hotkeys st = registerAll_spec os hotkeys st /\
  completion (on_register_all_hotkeys os hotkeys) st = Normal tt /\
  requests (exec (on_register_all_hotkeys os hotkeys) st)
  = requests st + List.length (planned hotkeys) /\
  (forall accelerator,
      In accelerator (JsObject.keys (registeredHotkeys st)) ->
      registrations_of accelerator (shortcuts (cleared st)) = []) /\
  registeredHotkeys (exec (on_register_all_hotkeys os []) st) = [] /\
  registeredHotkeys
    (exec (on_register_all_hotkeys os
             [(js "play", Some (js "")); (js "stop", Some (js "Ctrl + S"))])
          st)
  = [(js "CommandOrControl+S", js "stop")].
Proof.
  intros Hn.
  assert (Heq : on_register_all_hotkeys os hotkeys st
                = registerAll_spec os hotkeys st).
  { rewrite on_register_all_hotkeys_eq. unfold registerAll_spec.
    apply register_entries_planned. intros k h. apply get_of_entry, Hn. }
  split; [exact Heq|].
  unfold completion, exec. rewrite Heq. unfold registerAll_spec.
  destruct (forEach_register_requests (planned hotkeys) (cleared st))
    as [Hc Hr].
  split; [exact Hc|]. split; [exact Hr|]. split.
  - intros accelerator Hin. unfold cleared, registrations_of. simpl.
    induction (shortcuts st) as [|e held IH]; simpl; [reflexivity|].
    destruct (existsb _ _) eqn:E; simpl; [exact IH|].
    destruct (holds accelerator e) eqn:Eh; [|exact IH].
    exfalso. apply Bool.not_true_iff_false in E. apply E.
    apply existsb_exists. exists accelerator. split; assumption.
  - split.
    + rewrite on_register_all_hotkeys_eq. reflexivity.
    + rewrite on_register_all_hotkeys_eq.
      cbn [JsObject.keys map fst forEach].
      unfold bind at 1. cbn.
      unfold bind. rewrite registerGlobalHotkey_eq. reflexivity.
Qed.

End CoreProperties.

(** ** Concrete runs *)

Lemma os_free_refuses_held : refuses_held os_free.
Proof.
  intros n held accelerator Hin. unfold os_free.
  destruct (existsb (fun e => JsString.eqb accelerator (fst e)) held) eqn:E;
    [discriminate|].
  exfalso. apply Bool.not_true_iff_false in E. apply E.
  apply existsb_exists. apply in_map_iff in Hin as [e [He Hin]].
  exists e. split; [exact Hin|]. subst. apply JsStringFacts.eqb_refl.
Qed.

Lemma os_once_refuses_held : refuses_held os_once.
Proof.
  intros [|n] held accelerator Hin; [|discriminate].
  apply os_free_refuses_held. exact Hin.
Qed.

(** The request throws from a fresh process. *)
Lemma register_throw_recorded_witness :
  js "CommandOrControl+K" <> js "__proto__" /\
  reply_to os_raising (js "CommandOrControl+K") (init unit) = Raised /\
  completion
    (registerGlobalHotkey os_raising (js "CommandOrControl+K") (js "play"))
    (init unit)
  = Normal tt /\
  JsObject.get
    (registeredHotkeys
       (exec (registerGlobalHotkey os_raising (js "CommandOrControl+K")
                (js "play")) (init unit)))
    (js "CommandOrControl+K")
  = Some (js "play").
Proof.
  assert (Hp : js "CommandOrControl+K" <> js "__proto__") by discriminate.
  split; [exact Hp | split; [reflexivity|]].
  pose proof (@register_throw_recorded unit os_raising
                (js "CommandOrControl+K") (js "play") (init unit) Hp eq_refl)
    as (Hc & _ & Hg & _).
  split; [exact Hc | exact Hg].
Defined.

(** C1 (as stated) fails: with both windows live, a request that throws
    leaves the binding in the bookkeeping but sends nothing, where a denied
    request sends the fallback notice. *)
Lemma register_throw_sends_nothing :
  let st := exec (createWindows (Cmd:=unit)) (init unit) in
  controlWin st = Live /\
  reply_to os_raising (js "CommandOrControl+K") st = Raised /\
  outbox (exec (registerGlobalHotkey os_raising (js "CommandOrControl+K")
                  (js "play")) st)
  = [] /\
  outbox (exec (registerGlobalHotkey os_denying (js "CommandOrControl+K")
                  (js "play")) st)
  = [fallback_notice unit (js "CommandOrControl+K") (js "play")].
Proof. repeat split. Qed.

(** The request is denied while the control window is live. *)
Lemma register_denied_fallback_witness :
  let st := exec (createWindows (Cmd:=unit)) (init unit) in
  js "CommandOrControl+K" <> js "__proto__" /\
  reply_to os_denying (js "CommandOrControl+K") st = Denied /\
  outbox (exec (registerGlobalHotkey os_denying (js "CommandOrControl+K")
                  (js "play")) st)
  = [fallback_notice unit (js "CommandOrControl+K") (js "play")].
Proof.
  assert (Hp : js "CommandOrControl+K" <> js "__proto__") by discriminate.
  split; [exact Hp | split; [reflexivity|]].
  exact (proj2 (proj2 (@register_denied_fallback unit os_denying
                         (js "CommandOrControl+K") (js "play")
                         (exec (createWindows (Cmd:=unit)) (init unit))
                         Hp eq_refl))).
Defined.

(** C4 (as stated) fails: once the control window is destroyed, a denied
    request records the binding and sends no notice. *)
Lemma denied_without_control_window :
  let st := run os_denying false [CreateWindows unit; WindowClosed unit Control]
                (init unit) in
  controlWin st = Destroyed /\
  reply_to os_denying (js "CommandOrControl+K") st = Denied /\
  JsObject.get
    (registeredHotkeys
       (exec (registerGlobalHotkey os_denying (js "CommandOrControl+K")
                (js "play")) st))
    (js "CommandOrControl+K")
  = Some (js "play") /\
  outbox (exec (registerGlobalHotkey os_denying (js "CommandOrControl+K")
                  (js "play")) st)
  = [].
Proof. repeat split. Qed.

(** C2 (as stated) fails: the shutdown handlers release the registrations
    and leave the bookkeeping as it was. *)
Lemma shutdown_keeps_bookkeeping :
  let st := run os_free false
                [CreateWindows unit; Register unit (js "F5") (js "play")]
                (init unit) in
  shortcuts (exec (@on_will_quit unit) st) = [] /\
  registeredHotkeys (exec (@on_will_quit unit) st) = [(js "F5", js "play")] /\
  registeredHotkeys (exec (@on_window_all_closed unit false) st)
  = [(js "F5", js "play")].
Proof. repeat split. Qed.

(** Two registrations of one accelerator on a platform that grants what is
    free. *)
Lemma registry_single_binding_witness :
  let st2 := run os_free false
                 [Register unit (js "F5") (js "foo");
                  Register unit (js "F5") (js "bar")]
                 (init unit) in
  single_binding st2 /\
  registrations_of (js "F5") (registeredHotkeys st2) = [(js "F5", js "bar")] /\
  registrations_of (js "F5") (shortcuts st2) = [(js "F5", js "bar")].
Proof.
  pose proof (@registry_single_binding unit os_free false os_free_refuses_held)
    as [Hinv Hex].
  split.
  - apply Hinv. do 2 constructor. constructor.
  - assert (Hp : js "F5" <> js "__proto__") by discriminate.
    destruct (Hex (init unit) (js "F5") (reachable_init unit os_free false) Hp)
      as (Hb & _ & Hs).
    split; [exact Hb | exact Hs].
Defined.

(** C3 (as stated) fails: when the platform denies the second request, the
    first registration has been released and none is active for the
    accelerator, which is bound to ["bar"] in the bookkeeping. *)
Lemma denied_rebinding_leaves_no_registration :
  let st1 := exec (registerGlobalHotkey os_once (js "F5") (js "foo"))
                  (init unit) in
  let st2 := exec (registerGlobalHotkey os_once (js "F5") (js "bar")) st1 in
  refuses_held os_once /\
  registrations_of (js "F5") (shortcuts st1) = [(js "F5", js "foo")] /\
  reply_to os_once (js "F5") st1 = Denied /\
  JsObject.get (registeredHotkeys st2) (js "F5") = Some (js "bar") /\
  registrations_of (js "F5") (shortcuts st2) = [].
Proof.
  split; [exact os_once_refuses_held | repeat split].
Qed.

(** The example of the bulk replace. *)
Lemma register_all_refines_witness :
  let hotkeys := [(js "play", Some (js "")); (js "stop", Some (js "Ctrl + S"))] in
  NoDup (JsObject.keys hotkeys) /\
  planned hotkeys = [(js "CommandOrControl+S", js "stop")] /\
  on_register_all_hotkeys os_free hotkeys (init unit)
  = registerAll_spec os_free hotkeys (init unit) /\
  requests (exec (on_register_all_hotkeys os_free hotkeys) (init unit)) = 1.
Proof.
  assert (Hn : NoDup (JsObject.keys
                        [(js "play", Some (js ""));
                         (js "stop", Some (js "Ctrl + S"))])).
  { repeat constructor; simpl; intuition discriminate. }
  split; [exact Hn|]. split; [reflexivity|].
  pose proof (@register_all_refines unit os_free _ (init unit) Hn)
    as (Heq & _ & Hr & _).
  split; [exact Heq | exact Hr].
Defined.

(** C5 (as stated) fails: a hotkey string of white space is not empty, its
    translation is, and the pair gets no registration request. *)
Lemma blank_hotkey_not_attempted :
  let hotkeys := [(js "play", Some (js " "))] in
  Some (js " ") <> Some (js "") /\
  convertToElectronAccelerator (Some (js " ")) = Some (js "") /\
  requests (exec (on_register_all_hotkeys os_free hotkeys) (init unit))
  = requests (init unit) /\
  registeredHotkeys (exec (on_register_all_hotkeys os_free hotkeys) (init unit))
  = [].
Proof.
  split; [discriminate | repeat split].
Qed.

(** Two accelerators in the bookkeeping. *)
Lemma registry_frame_witness :
  let st := run os_free false
                [CreateWindows nat; Register nat (js "F6") (js "stop")]
                (init nat) in
  JsObject.get
    (registeredHotkeys (exec (registerGlobalHotkey os_free (js "F5") (js "play"))
                             st))
    (js "F6")
  = Some (js "stop") /\
  JsObject.get
    (registeredHotkeys (exec (unregisterGlobalHotkey (js "F5")) st)) (js "F6")
  = Some (js "stop") /\
  registeredHotkeys (exec (on_graphic_command 7) st) = registeredHotkeys st.
Proof.
  assert (Hne : js "F6" <> js "F5") by discriminate.
  pose proof (@registry_frame nat os_free (js "F5") (js "F6") (js "play") 7
                (run os_free false
                     [CreateWindows nat; Register nat (js "F6") (js "stop")]
                     (init nat)) Hne)
    as ((_ & H1) & (_ & H2) & H3).
  split; [exact H1 | split; [exact H2 | exact H3]].
Defined.

(** Without the refusal of held accelerators the deferred pass, which
    empties the bookkeeping before it registers again, would double every
    registration. *)
Remark deferred_pass_relies_on_refusal :
  let st := run os_lenient false
                [Register unit (js "F5") (js "play"); ReadyTimeout unit]
                (init unit) in
  registrations_of (js "F5") (shortcuts st)
  = [(js "F5", js "play"); (js "F5", js "play")].
Proof. reflexivity. Qed.

(** On a platform that refuses held accelerators the deferred pass finds
    every granted accelerator held: the registration stays and the control
    window is told to handle the key in the window. *)
Remark deferred_pass_requests_fallback :
  let st := run os_free false
                [CreateWindows unit; Register unit (js "F5") (js "play");
                 ReadyTimeout unit]
                (init unit) in
  shortcuts st = [(js "F5", js "play")] /\
  outbox st = [fallback_notice unit (js "F5") (js "play")].
Proof. split; reflexivity. Qed.

(** * Further properties *)

(** ** Translator: separators, blank strings, tokens *)

Section TranslatorMore.
Import JsString JsStringFacts.

Let space (s : jsstring) : Prop := Forall (fun c => is_space c = true) s.
Let inkless (s : jsstring) : Prop := Forall (fun c => is_space c = false) s.

Lemma strip_spaces_app (a b : jsstring) :
  strip_spaces (a ++ b) = strip_spaces a ++ strip_spaces b.
Proof.
  induction a as [|c a IH]; simpl; [reflexivity|].
  destruct (is_space c); simpl; rewrite IH; reflexivity.
Qed.

Lemma strip_spaces_nil (s : jsstring) : strip_spaces s = [] <-> space s.
Proof.
  induction s as [|c s IH]; simpl.
  - split; [constructor | reflexivity].
  - destruct (is_space c) eqn:E.
    + rewrite IH. split; [constructor; assumption | inversion 1; assumption].
    + split; [discriminate | inversion 1; congruence].
Qed.

(** The third stage changes nothing that the fourth would not delete. *)
Lemma strip_collapsed (skip : nat) (s : jsstring) :
  strip_spaces (replace_from (js " + ") (js "+") skip s)
  = strip_spaces (skipn skip s).
Proof.
  revert skip; induction s as [|c s IH]; intros skip.
  - destruct skip; reflexivity.
  - cbn [replace_from]. destruct skip as [|k]; [|apply IH].
    destruct (starts_with (js " + ") (c :: s)) eqn:E.
    + apply starts_with_app in E as [rest E].
      change (js " + ") with [32; 43; 32]%N in E. injection E as -> ->.
      change (List.length (js " + ") - 1) with 2.
      rewrite strip_spaces_app, IH. reflexivity.
    + cbn [skipn strip_spaces]. rewrite (IH 0). reflexivity.
Qed.

Lemma convert_without_separator (c : N) (s : jsstring) :
  convertToElectronAccelerator (Some (c :: s))
  = Some (strip_spaces
            (replace_all (js "Meta") (js "Super")
               (replace_all (js "Ctrl") (js "CommandOrControl") (c :: s)))).
Proof.
  unfold convertToElectronAccelerator. cbn [truthy negb].
  unfold replace_all at 1. rewrite strip_collapsed. reflexivity.
Qed.

(** X1: the stage that collapses [" + "] is redundant: on every non-empty
    string the translator returns what the two token stages followed by
    the stripping of white space return. *)
Theorem separator_stage_redundant (c : N) (s : jsstring) :
  convertToElectronAccelerator (Some (c :: s))
  = Some (strip_spaces
            (replace_all (js "Meta") (js "Super")
               (replace_all (js "Ctrl") (js "CommandOrControl") (c :: s)))).
Proof. apply convert_without_separator. Qed.

(** *** Blank strings *)

Lemma space_no_match (p : jsstring) (a : N) (q s : jsstring) :
  p = a :: q -> is_space a = false -> space s -> contains p s = false.
Proof.
  intros -> Ha. induction 1 as [|c s Hc _ IH]; [reflexivity|].
  cbn [contains]. rewrite IH, orb_false_r. simpl.
  destruct (a =? c)%N eqn:E; [|reflexivity].
  apply N.eqb_eq in E. congruence.
Qed.

Lemma replace_from_space (p r : jsstring) (skip : nat) (s : jsstring) :
  Exists (fun c => is_space c = false) r ->
  space (replace_from p r skip s) -> space (skipn skip s).
Proof.
  intros Hr. revert skip; induction s as [|c s IH]; intros skip.
  - destruct skip; intros _; constructor.
  - cbn [replace_from]. destruct skip as [|k]; [|apply IH].
    destruct (starts_with p (c :: s)).
    + intros H. exfalso. apply Forall_app in H as [H _].
      apply Exists_exists in Hr as [x [Hx Hs]].
      rewrite Forall_forall in H. specialize (H x Hx). congruence.
    + intros H. inversion H; subst. constructor; [assumption|].
      apply (IH 0). assumption.
Qed.

Lemma usable_none (h : option jsstring) :
  usable (convertToElectronAccelerator h) = None <-> blank h.
Proof.
  destruct h as [[|c s]|]; [split; [constructor | reflexivity] | |
                            split; [constructor | reflexivity]].
  rewrite convert_without_separator. cbn [usable blank].
  set (t := strip_spaces _).
  assert (Ht : t = [] <-> space (c :: s)).
  { subst t. rewrite strip_spaces_nil. split.
    - intros H.
      apply (@replace_from_space (js "Meta") (js "Super") 0) in H;
        [|left; reflexivity].
      apply (@replace_from_space (js "Ctrl") (js "CommandOrControl") 0) in H;
        [exact H | left; reflexivity].
    - intros H.
      rewrite (@replace_all_absent (js "Ctrl") (js "CommandOrControl") (c :: s))
        by (eapply space_no_match; [reflexivity | reflexivity | exact H]).
      rewrite (@replace_all_absent (js "Meta") (js "Super") (c :: s))
        by (eapply space_no_match; [reflexivity | reflexivity | exact H]).
      exact H. }
  destruct t as [|x t]; simpl.
  - split; [intros _; apply Ht; reflexivity | reflexivity].
  - split; [discriminate | intros H; apply Ht in H; discriminate].
Qed.

(** *** Tokens joined by a separator *)

Lemma starts_with_before (p a : jsstring) (c0 : N) (x : jsstring) :
  p <> [] -> ~ In c0 p ->
  starts_with p (a ++ c0 :: x) = starts_with p a.
Proof.
  revert a; induction p as [|b p IH]; intros a Hp Hc; [congruence|].
  destruct a as [|c a]; simpl.
  - destruct (b =? c0)%N eqn:E; [|reflexivity].
    apply N.eqb_eq in E. subst. exfalso. apply Hc. left. reflexivity.
  - destruct p as [|b' p'].
    + reflexivity.
    + rewrite IH; [reflexivity | discriminate |].
      intros H. apply Hc. right. exact H.
Qed.

Lemma starts_with_fits (p s : jsstring) :
  starts_with p s = true -> List.length p <= List.length s.
Proof.
  intros H; apply starts_with_app in H as [rest ->].
  rewrite length_app; lia.
Qed.

(** A match never straddles a code unit that the pattern does not have. *)
Lemma replace_from_app (p r : jsstring) (c0 : N) (x : jsstring) :
  p <> [] -> ~ In c0 p ->
  forall (a : jsstring) (skip : nat),
    skip <= List.length a ->
    replace_from p r skip (a ++ c0 :: x)
    = replace_from p r skip a ++ replace_from p r 0 (c0 :: x).
Proof.
  intros Hp Hc. induction a as [|c a IH]; intros skip Hk.
  - simpl in Hk. replace skip with 0 by lia. reflexivity.
  - change ((c :: a) ++ c0 :: x) with (c :: (a ++ c0 :: x)).
    cbn [replace_from]. destruct skip as [|k].
    + change (c :: (a ++ c0 :: x)) with ((c :: a) ++ c0 :: x).
      rewrite starts_with_before by assumption.
      destruct (starts_with p (c :: a)) eqn:E.
      * apply starts_with_fits in E. simpl in E.
        rewrite IH by lia. rewrite app_assoc. reflexivity.
      * rewrite IH by lia. reflexivity.
    + apply IH. simpl in Hk. lia.
Qed.

Lemma replace_all_separator (p r : jsstring) (a b : jsstring) :
  p <> [] -> ~ In 32%N p -> ~ In 43%N p ->
  replace_all p r (a ++ js " + " ++ b)
  = replace_all p r a ++ js " + " ++ replace_all p r b.
Proof.
  intros Hp H32 H43. unfold replace_all.
  change (js " + " ++ b) with (32%N :: 43%N :: 32%N :: b).
  rewrite replace_from_app by (assumption || lia). f_equal.
  assert (Hcopy : forall c y, ~ In c p ->
             replace_from p r 0 (c :: y) = c :: replace_from p r 0 y).
  { intros c y Hc. cbn [replace_from].
    destruct (starts_with p (c :: y)) eqn:E; [|reflexivity].
    exfalso. apply starts_with_app in E as [rest E].
    destruct p as [|c' p']; [congruence|]. injection E as -> _.
    apply Hc. left. reflexivity. }
  rewrite !Hcopy by assumption. reflexivity.
Qed.

(** X3: two hotkey strings joined by [" + "] are translated one by one:
    the translation of the whole is the two translations joined by
    ["+"]. *)
Theorem translate_joined (a b ta tb : jsstring) :
  convertToElectronAccelerator (Some a) = Some ta ->
  convertToElectronAccelerator (Some b) = Some tb ->
  convertToElectronAccelerator (Some (a ++ js " + " ++ b))
  = Some (ta ++ js "+" ++ tb).
Proof.
  intros Ha Hb.
  destruct a as [|ca a]; [discriminate|]. destruct b as [|cb b]; [discriminate|].
  pose proof (eq_trans (eq_sym (convert_without_separator ca a)) Ha) as Ha'.
  pose proof (eq_trans (eq_sym (convert_without_separator cb b)) Hb) as Hb'.
  injection Ha' as <-. injection Hb' as <-.
  change ((ca :: a) ++ js " + " ++ cb :: b)
    with (ca :: (a ++ js " + " ++ cb :: b)).
  refine (eq_trans (convert_without_separator ca _) _). f_equal.
  change (ca :: (a ++ js " + " ++ cb :: b))
    with ((ca :: a) ++ js " + " ++ cb :: b).
  rewrite (@replace_all_separator (js "Ctrl") (js "CommandOrControl"))
    by (try discriminate; cbv; intuition discriminate).
  rewrite (@replace_all_separator (js "Meta") (js "Super"))
    by (try discriminate; cbv; intuition discriminate).
  rewrite !strip_spaces_app. reflexivity.
Qed.

End TranslatorMore.

(** The modifier and the key of a two-token hotkey. *)
Lemma translate_joined_witness :
  convertToElectronAccelerator (Some (js "Ctrl")) = Some (js "CommandOrControl")
  /\ convertToElectronAccelerator (Some (js "K")) = Some (js "K")
  /\ convertToElectronAccelerator (Some (js "Ctrl" ++ js " + " ++ js "K"))
     = Some (js "CommandOrControl" ++ js "+" ++ js "K").
Proof.
  split; [reflexivity | split; [reflexivity|]].
  exact (@translate_joined (js "Ctrl") (js "K") (js "CommandOrControl") (js "K")
           eq_refl eq_refl).
Defined.

(** ** Objects: a store followed by a delete *)

Section ObjectMore.
Variable V : Type.
Implicit Types (o : JsObject.t V) (k : jsstring) (v : V).

Lemma in_keys_set o k v k0 :
  In k0 (JsObject.keys (JsObject.set o k v))
  <-> k0 = k \/ In k0 (JsObject.keys o).
Proof.
  unfold JsObject.set. destruct (JsObject.get o k) eqn:E.
  - rewrite JsObjectFacts.keys_update. split; [auto|].
    intros [->|H]; [|exact H].
    apply JsObjectFacts.get_in_keys. congruence.
  - apply JsObjectFacts.in_keys_create.
Qed.

Lemma delete_absent o k : JsObject.get o k = None -> JsObject.delete o k = o.
Proof.
  induction o as [|[k' v'] o IH]; simpl; [reflexivity|].
  destruct (JsString.eqb k k'); [discriminate|].
  intros H. rewrite IH by exact H. reflexivity.
Qed.

(** [o[k] = v; delete o[k]] gives [o] back when [k] was not a key. *)
Lemma delete_set_absent o k v :
  JsObject.get o k = None -> JsObject.delete (JsObject.set o k v) k = o.
Proof.
  unfold JsObject.set. intros H. rewrite H.
  induction o as [|[k' v'] o IH]; simpl.
  - rewrite JsStringFacts.eqb_refl. reflexivity.
  - simpl in H. destruct (JsString.eqb k k') eqn:E; [discriminate|].
    destruct (JsObject.precedes k k'); simpl.
    + rewrite JsStringFacts.eqb_refl, E, delete_absent by exact H.
      reflexivity.
    + rewrite E, IH by exact H. reflexivity.
Qed.

End ObjectMore.

(** ** Registry: round trips, edge cases, triggers *)

Section CoreMore.

Variable Cmd : Type.
Variable os : Platform.
Variable darwin : bool.

Implicit Types (st : Store Cmd) (accelerator action : jsstring).

Lemma usable_presentable (h : option jsstring) (a : jsstring) :
  usable (convertToElectronAccelerator h) = Some a ->
  convertToElectronAccelerator h = Some a /\ presentable a.
Proof.
  destruct h as [s|]; [|discriminate].
  destruct (convertToElectronAccelerator (Some s)) as [t|] eqn:E;
    [|discriminate].
  simpl. destruct t as [|c t]; simpl; [discriminate|].
  intros H; injection H as <-. split; [reflexivity|].
  split; [discriminate | exact (convert_clean _ E)].
Qed.

(** X2: a blank hotkey string (absent, empty or white space only) is
    passed over: its translation is unusable and the handlers of
    [register-hotkey] and [unregister-hotkey] return with the store as it
    was. *)
Theorem blank_hotkey_ignored (h : option jsstring) action st :
  blank h ->
  usable (convertToElectronAccelerator h) = None /\
  on_register_hotkey os h action st = (Normal tt, st) /\
  on_unregister_hotkey h st = (Normal tt, st).
Proof.
  intros H. apply usable_none in H.
  unfold on_register_hotkey, on_unregister_hotkey. rewrite H.
  repeat split.
Qed.

(** X13: a hotkey string that is not blank is registered: the handler of
    [register-hotkey] makes one registration request and, unless the
    translation is the name [__proto__], records the action under the
    translation, which is not empty and has no white space. *)
Theorem nonblank_hotkey_registered (h : option jsstring) action st :
  ~ blank h ->
  convertToElectronAccelerator h <> Some (js "__proto__") ->
  exists a,
    convertToElectronAccelerator h = Some a /\ presentable a /\
    completion (on_register_hotkey os h action) st = Normal tt /\
    requests (exec (on_register_hotkey os h action) st) = S (requests st) /\
    JsObject.get
      (registeredHotkeys (exec (on_register_hotkey os h action) st)) a
    = Some action.
Proof.
  intros H Hp.
  destruct (usable (convertToElectronAccelerator h)) as [a|] eqn:E;
    [|exfalso; apply H, usable_none, E].
  destruct (usable_presentable _ E) as [Hc Hpr].
  exists a. split; [exact Hc|]. split; [exact Hpr|].
  unfold on_register_hotkey, completion, exec. rewrite E.
  rewrite registerGlobalHotkey_eq. simpl.
  repeat split. apply get_assign_same. congruence.
Qed.

(** X4: [register-hotkey] followed by [unregister-hotkey] with the same
    hotkey string is a round trip: when the action is not empty and the
    translated accelerator had no binding, the bookkeeping is exactly as
    before and the process holds no registration for the accelerator. *)
Theorem ipc_register_unregister_roundtrip
        (h : option jsstring) (a : jsstring) action st :
  usable (convertToElectronAccelerator h) = Some a ->
  action <> [] ->
  JsObject.get (registeredHotkeys st) a = None ->
  completion (on_unregister_hotkey h)
             (exec (on_register_hotkey os h action) st) = Normal tt /\
  registeredHotkeys
    (exec (on_unregister_hotkey h) (exec (on_register_hotkey os h action) st))
  = registeredHotkeys st /\
  shortcuts
    (exec (on_unregister_hotkey h) (exec (on_register_hotkey os h action) st))
  = others a (shortcuts st).
Proof.
  intros Hu Ha Hg. unfold on_register_hotkey, on_unregister_hotkey.
  rewrite Hu. unfold completion, exec.
  rewrite unregisterGlobalHotkey_eq, registerGlobalHotkey_eq. simpl.
  assert (Hb : is_bound a
                 (snd (registerGlobalHotkey os a action st)) = true).
  { unfold is_bound. rewrite registerGlobalHotkey_eq. simpl.
    unfold assign. rewrite Hg.
    destruct (JsString.eqb a (js "__proto__")) eqn:Ep.
    - rewrite Hg. apply JsStringFacts.eqb_eq in Ep. subst a. reflexivity.
    - rewrite JsObjectFacts.get_set_same.
      destruct action; [congruence | reflexivity]. }
  rewrite registerGlobalHotkey_eq in Hb. simpl in Hb. rewrite Hb. simpl.
  split; [reflexivity|]. split.
  - unfold assign. rewrite Hg.
    destruct (JsString.eqb a (js "__proto__"));
      [apply delete_absent | apply delete_set_absent]; exact Hg.
  - assert (Hh : others a (held_at_request a st) = others a (shortcuts st)).
    { unfold held_at_request. destruct (is_bound a st); [|reflexivity].
      unfold others. induction (shortcuts st) as [|e l IH]; [reflexivity|].
      simpl. destruct (holds a e) eqn:E; simpl; [exact IH|].
      rewrite E. simpl. rewrite IH. reflexivity. }
    destruct (reply_to os a st); try exact Hh.
    unfold others in *. rewrite filter_app, Hh. simpl. unfold holds at 2.
    simpl. rewrite JsStringFacts.eqb_refl. simpl. apply app_nil_r.
Qed.

Lemma registrations_of_granted accelerator st :
  refuses_held os ->
  reply_to os accelerator st = Granted ->
  registrations_of accelerator (held_at_request accelerator st) = [].
Proof.
  intros Hos Hr. apply registrations_of_absent.
  intros Hin. exact (Hos _ _ _ Hin Hr).
Qed.

Lemma hotkey_pressed_single accelerator action st :
  registrations_of accelerator (shortcuts st) = [(accelerator, action)] ->
  hotkey_pressed accelerator st
  = (Normal tt,
     match controlWin st with
     | Live =>
         mkStore (registeredHotkeys st) (shortcuts st) (requests st)
                 (controlWin st) (graphicsWin st)
                 (outbox st ++ [triggered Cmd action])
                 (quitting st) (stale_sends st)
     | Absent | Destroyed => st
     end).
Proof.
  intros H. unfold hotkey_pressed, registrations_of in *.
  unfold bind at 1, read. rewrite H. cbn [forEach snd].
  unfold bind. rewrite hotkey_callback_eq. unfold ret, triggered.
  destruct (controlWin st); reflexivity.
Qed.

Lemma hotkey_pressed_none accelerator st :
  registrations_of accelerator (shortcuts st) = [] ->
  hotkey_pressed accelerator st = (Normal tt, st).
Proof.
  intros H. unfold hotkey_pressed, registrations_of in *.
  unfold bind, read. rewrite H. reflexivity.
Qed.

(** X6: on a platform that refuses held accelerators, for every
    accelerator but the name [__proto__], a granted registration is the
    one that fires: a press of the accelerator sends
    exactly one [global-hotkey-triggered] message with the action just
    registered to a live control window (nothing to a window that is not
    live), whatever was registered for the accelerator before; after
    [unregisterGlobalHotkey] a press sends nothing, unless the action is
    the empty string. *)
Theorem granted_hotkey_fires accelerator action st :
  refuses_held os ->
  accelerator <> js "__proto__" ->
  reply_to os accelerator st = Granted ->
  completion (hotkey_pressed accelerator)
             (exec (registerGlobalHotkey os accelerator action) st)
  = Normal tt /\
  outbox (exec (hotkey_pressed accelerator)
               (exec (registerGlobalHotkey os accelerator action) st))
  = outbox st ++
    match controlWin st with
    | Live => [triggered Cmd action]
    | Absent | Destroyed => []
    end /\
  outbox (exec (hotkey_pressed accelerator)
            (exec (unregisterGlobalHotkey accelerator)
               (exec (registerGlobalHotkey os accelerator action) st)))
  = outbox st ++
    match controlWin st, JsString.truthy action with
    | Live, false => [triggered Cmd action]
    | _, _ => []
    end.
Proof.
  intros Hos Hp Hr.
  pose proof (registrations_of_granted Hos Hr) as Hh.
  set (st1 := exec (registerGlobalHotkey os accelerator action) st).
  assert (Hs1 : shortcuts st1
                = held_at_request accelerator st ++ [(accelerator, action)]).
  { subst st1. unfold exec. rewrite registerGlobalHotkey_eq. simpl.
    rewrite Hr. reflexivity. }
  assert (Ho1 : outbox st1 = outbox st /\ controlWin st1 = controlWin st).
  { subst st1. unfold exec. rewrite registerGlobalHotkey_eq. simpl.
    rewrite Hr. split; reflexivity. }
  destruct Ho1 as [Ho1 Hc1].
  assert (Hreg : registrations_of accelerator (shortcuts st1)
                 = [(accelerator, action)]).
  { rewrite Hs1, registrations_of_app, Hh. simpl. unfold holds. simpl.
    rewrite JsStringFacts.eqb_refl. reflexivity. }
  assert (Hb1 : is_bound accelerator st1 = JsString.truthy action).
  { subst st1. unfold is_bound, exec. rewrite registerGlobalHotkey_eq. simpl.
    rewrite get_assign_same by exact Hp. reflexivity. }
  split; [|split].
  - unfold completion. rewrite (@hotkey_pressed_single accelerator action st1 Hreg). reflexivity.
  - unfold exec at 1. rewrite (@hotkey_pressed_single accelerator action st1 Hreg). simpl.
    rewrite Hc1. destruct (controlWin st); simpl; rewrite Ho1, ?app_nil_r;
      reflexivity.
  - unfold exec at 1 2. rewrite unregisterGlobalHotkey_eq. simpl.
    rewrite Hb1. destruct (JsString.truthy action).
    + rewrite hotkey_pressed_none; simpl.
      * rewrite Ho1. destruct (controlWin st); rewrite app_nil_r; reflexivity.
      * apply registrations_of_others.
    + rewrite (@hotkey_pressed_single accelerator action st1 Hreg). simpl.
      rewrite Hc1. destruct (controlWin st); simpl; rewrite Ho1, ?app_nil_r;
        reflexivity.
Qed.

(** X5: a binding to the empty action name sticks. On a platform that
    refuses held accelerators, for every accelerator [A] but the name
    [__proto__], after a granted
    [registerGlobalHotkey(A, "")] the test of line 104 is falsy, so
    [unregisterGlobalHotkey(A)] changes nothing, and a later
    [registerGlobalHotkey(A, action)] does not release the registration:
    the bookkeeping then maps [A] to [action] while the one registration
    the process holds for [A] still carries the empty action. *)
Theorem empty_action_sticks accelerator action st :
  refuses_held os ->
  accelerator <> js "__proto__" ->
  reply_to os accelerator st = Granted ->
  unregisterGlobalHotkey accelerator
    (exec (registerGlobalHotkey os accelerator (js "")) st)
  = (Normal tt, exec (registerGlobalHotkey os accelerator (js "")) st) /\
  JsObject.get
    (registeredHotkeys
       (exec (registerGlobalHotkey os accelerator action)
          (exec (registerGlobalHotkey os accelerator (js "")) st)))
    accelerator
  = Some action /\
  registrations_of accelerator
    (shortcuts
       (exec (registerGlobalHotkey os accelerator action)
          (exec (registerGlobalHotkey os accelerator (js "")) st)))
  = [(accelerator, js "")].
Proof.
  intros Hos Hp Hr.
  pose proof (registrations_of_granted Hos Hr) as Hh.
  set (st1 := exec (registerGlobalHotkey os accelerator (js "")) st).
  assert (Hb1 : is_bound accelerator st1 = false).
  { subst st1. unfold is_bound, exec. rewrite registerGlobalHotkey_eq. simpl.
    rewrite get_assign_same by exact Hp. reflexivity. }
  assert (Hs1 : shortcuts st1
                = held_at_request accelerator st ++ [(accelerator, js "")]).
  { subst st1. unfold exec. rewrite registerGlobalHotkey_eq. simpl.
    rewrite Hr. reflexivity. }
  assert (Hreg : registrations_of accelerator (shortcuts st1)
                 = [(accelerator, js "")]).
  { rewrite Hs1, registrations_of_app, Hh. simpl. unfold holds. simpl.
    rewrite JsStringFacts.eqb_refl. reflexivity. }
  split; [|split].
  - rewrite unregisterGlobalHotkey_eq, Hb1. reflexivity.
  - unfold exec at 1. rewrite registerGlobalHotkey_eq. simpl.
    apply get_assign_same. exact Hp.
  - unfold exec at 1. rewrite registerGlobalHotkey_eq. simpl.
    assert (Hheld : held_at_request accelerator st1 = shortcuts st1).
    { unfold held_at_request. rewrite Hb1. reflexivity. }
    rewrite Hheld.
    destruct (reply_to os accelerator st1) eqn:E; try exact Hreg.
    exfalso. unfold reply_to in E. rewrite Hheld in E.
    refine (Hos _ _ _ _ E). rewrite Hs1, map_app, in_app_iff.
    right. left. reflexivity.
Qed.

End CoreMore.

(** ** Loops over the bookkeeping *)

Lemma preserves_forEach_in (S A : Type) (P : S -> Prop) (l : list A)
      (f : A -> Js S unit) :
  (forall x, In x l -> preserves P (f x)) -> preserves P (forEach l f).
Proof.
  induction l as [|x l IH]; simpl; intros Hf.
  - apply preserves_ret.
  - apply preserves_bind; [apply Hf; left; reflexivity | intros _].
    apply IH. intros y Hy. apply Hf. right. exact Hy.
Qed.

Section Passes.

Variable Cmd : Type.
Variable os : Platform.
Variable darwin : bool.

Implicit Types (st : Store Cmd) (accelerator action : jsstring).

(** The store after line 180, and the body of the loop of lines 181-183
    over the copy [o]. *)
Let emptied st : Store Cmd :=
  mkStore [] (shortcuts st) (requests st) (controlWin st) (graphicsWin st)
          (outbox st) (quitting st) (stale_sends st).

Let reregister (o : JsObject.t jsstring) : jsstring -> M Cmd unit :=
  fun accelerator =>
    match JsObject.get o accelerator with
    | Some action => registerGlobalHotkey os accelerator action
    | None => ret tt
    end.

Lemma on_ready_timeout_eq st :
  on_ready_timeout os st
  = forEach (JsObject.keys (registeredHotkeys st))
            (reregister (registeredHotkeys st)) (emptied st).
Proof. reflexivity. Qed.

Lemma held_at_request_incl accelerator st (e : Shortcut) :
  In e (held_at_request accelerator st) -> In e (shortcuts st).
Proof.
  unfold held_at_request. destruct (is_bound accelerator st); [|auto].
  intros H. apply filter_In in H. tauto.
Qed.

Lemma register_shortcuts_incl accelerator action st (e : Shortcut) :
  In e (shortcuts (exec (registerGlobalHotkey os accelerator action) st)) ->
  In e (shortcuts st) \/ e = (accelerator, action).
Proof.
  unfold exec. rewrite registerGlobalHotkey_eq. simpl.
  destruct (reply_to os accelerator st);
    try (intros H; left; eapply held_at_request_incl; exact H).
  rewrite in_app_iff. simpl.
  intros [H|[H|[]]]; [left; eapply held_at_request_incl; exact H | right; auto].
Qed.

(** *** The deferred pass *)

Lemma reregister_loop (o : JsObject.t jsstring) (l : list jsstring) :
  forall st,
    completion (forEach l (reregister o)) st = Normal tt /\
    (forall k,
        k <> js "__proto__" ->
        JsObject.get (registeredHotkeys (exec (forEach l (reregister o)) st)) k
        = match JsObject.get o k with
          | Some a =>
              if existsb (JsString.eqb k) l then Some a
              else JsObject.get (registeredHotkeys st) k
          | None => JsObject.get (registeredHotkeys st) k
          end) /\
    (JsObject.get (registeredHotkeys st) (js "__proto__") = None ->
     JsObject.get (registeredHotkeys (exec (forEach l (reregister o)) st))
                  (js "__proto__") = None) /\
    requests (exec (forEach l (reregister o)) st)
    = requests st
      + List.length
          (filter (fun k => match JsObject.get o k with
                            | Some _ => true
                            | None => false
                            end) l).
Proof.
  induction l as [|k0 l IH]; intros st.
  - repeat split; [| auto | simpl; unfold exec, ret; simpl; lia].
    intros k _. simpl. destruct (JsObject.get o k); reflexivity.
  - cbn [forEach filter]. unfold completion, exec, bind.
    unfold reregister at 1 3 5 7.
    destruct (JsObject.get o k0) as [a0|] eqn:E0.
    + rewrite registerGlobalHotkey_eq.
      match goal with
      | |- context [forEach l (reregister o) ?s] =>
          destruct (IH s) as (Hc & Hg & Hp & Hn)
      end.
      unfold completion, exec in Hc, Hg, Hp, Hn.
      split; [exact Hc|]. split; [|split].
      * intros k Hk. rewrite Hg by exact Hk. simpl.
        destruct (JsObject.get o k) as [a|] eqn:Ek.
        -- destruct (JsString.eqb k k0) eqn:Ekk; simpl.
           ++ apply JsStringFacts.eqb_eq in Ekk. subst k0.
              rewrite get_assign_same by exact Hk.
              destruct (existsb (JsString.eqb k) l); congruence.
           ++ apply JsStringFacts.eqb_neq in Ekk.
              rewrite get_assign_other by exact Ekk. reflexivity.
        -- apply get_assign_other. congruence.
      * intros H0. apply Hp. simpl. apply get_assign_proto. exact H0.
      * rewrite Hn. simpl. lia.
    + unfold ret.
      destruct (IH st) as (Hc & Hg & Hp & Hn).
      unfold completion, exec in Hc, Hg, Hp, Hn.
      split; [exact Hc|]. split; [|split; [exact Hp | rewrite Hn; lia]].
      intros k Hk. rewrite Hg by exact Hk.
      destruct (JsObject.get o k) as [a|] eqn:Ek; [|reflexivity].
      cbn [existsb].
      destruct (JsString.eqb k k0) eqn:Ekk; simpl; [|reflexivity].
      apply JsStringFacts.eqb_eq in Ekk. congruence.
Qed.

Lemma keys_all_bound (o : JsObject.t jsstring) :
  filter (fun k => match JsObject.get o k with
                   | Some _ => true
                   | None => false
                   end) (JsObject.keys o)
  = JsObject.keys o.
Proof.
  apply forallb_filter_id. apply forallb_forall. intros k Hk.
  apply JsObjectFacts.get_in_keys in Hk.
  destruct (JsObject.get o k); congruence.
Qed.

Lemma mem_keys (o : JsObject.t jsstring) (k a : jsstring) :
  JsObject.get o k = Some a ->
  existsb (JsString.eqb k) (JsObject.keys o) = true.
Proof.
  intros H. apply existsb_exists. exists k.
  split; [|apply JsStringFacts.eqb_refl].
  apply JsObjectFacts.get_in_keys. congruence.
Qed.

(** X7: the deferred pass returns normally, makes one registration request
    for every key of the bookkeeping, and leaves every accelerator bound
    to the action it was bound to (and every other accelerator unbound),
    whatever the platform answers.  The name [__proto__], which no store
    of the program can record, is not a key afterwards; from a bookkeeping
    without that key, as every reachable one is, every lookup is as
    before. *)
Theorem deferred_pass_keeps_bindings st :
  completion (on_ready_timeout os) st = Normal tt /\
  (forall k,
      JsObject.get (registeredHotkeys (exec (on_ready_timeout os) st)) k
      = if JsString.eqb k (js "__proto__") then None
        else JsObject.get (registeredHotkeys st) k) /\
  (JsObject.get (registeredHotkeys st) (js "__proto__") = None ->
   forall k,
     JsObject.get (registeredHotkeys (exec (on_ready_timeout os) st)) k
     = JsObject.get (registeredHotkeys st) k) /\
  requests (exec (on_ready_timeout os) st)
  = requests st + List.length (JsObject.keys (registeredHotkeys st)).
Proof.
  unfold completion, exec. rewrite on_ready_timeout_eq.
  destruct (reregister_loop (registeredHotkeys st)
              (JsObject.keys (registeredHotkeys st)) (emptied st))
    as (Hc & Hg & Hp & Hn).
  unfold completion, exec in Hc, Hg, Hp, Hn.
  assert (Hall : forall k,
             JsObject.get
               (registeredHotkeys
                  (snd (forEach (JsObject.keys (registeredHotkeys st))
                          (reregister (registeredHotkeys st)) (emptied st)))) k
             = if JsString.eqb k (js "__proto__") then None
               else JsObject.get (registeredHotkeys st) k).
  { intros k. destruct (JsString.eqb k (js "__proto__")) eqn:Ek.
    - apply JsStringFacts.eqb_eq in Ek. subst k. apply Hp. reflexivity.
    - apply JsStringFacts.eqb_neq in Ek. rewrite Hg by exact Ek.
      destruct (JsObject.get (registeredHotkeys st) k) as [a|] eqn:E;
        [|reflexivity].
      rewrite (mem_keys _ _ E). reflexivity. }
  split; [exact Hc|]. split; [exact Hall|]. split.
  - intros H0 k. rewrite Hall.
    destruct (JsString.eqb k (js "__proto__")) eqn:Ek; [|reflexivity].
    apply JsStringFacts.eqb_eq in Ek. subst k. symmetry. exact H0.
  - rewrite Hn, keys_all_bound. reflexivity.
Qed.

Lemma reregister_held_loop (o : JsObject.t jsstring) :
  denies_held os ->
  forall (l : list Shortcut) st,
    (forall e, In e l -> JsObject.get o (fst e) = Some (snd e)) ->
    NoDup (map fst l) ->
    (forall k, In k (map fst l) ->
               inherited k = false /\
               In k (map fst (shortcuts st)) /\
               JsObject.get (registeredHotkeys st) k = None) ->
    completion (forEach (map fst l) (reregister o)) st = Normal tt /\
    shortcuts (exec (forEach (map fst l) (reregister o)) st) = shortcuts st /\
    controlWin (exec (forEach (map fst l) (reregister o)) st) = controlWin st /\
    outbox (exec (forEach (map fst l) (reregister o)) st)
    = outbox st ++
      match controlWin st with
      | Live => map (fun e => fallback_notice Cmd (fst e) (snd e)) l
      | Absent | Destroyed => []
      end.
Proof.
  intros Hos. induction l as [|[k0 v0] l IH]; intros st Hl Hn Hk.
  - simpl. unfold completion, exec, ret. simpl.
    repeat split. destruct (controlWin st); rewrite app_nil_r; reflexivity.
  - cbn [map fst forEach]. unfold completion, exec, bind.
    unfold reregister at 1 3 5 7.
    pose proof (Hl (k0, v0) (or_introl eq_refl)) as H0. simpl in H0.
    rewrite H0.
    rewrite registerGlobalHotkey_eq.
    destruct (Hk k0 (or_introl eq_refl)) as (Hown & Hheld & Hfree).
    assert (Hb : held_at_request k0 st = shortcuts st).
    { unfold held_at_request, is_bound. rewrite Hfree, Hown. reflexivity. }
    assert (Hr : reply_to os k0 st = Denied).
    { unfold reply_to. rewrite Hb. apply Hos. exact Hheld. }
    rewrite Hr, Hb.
    inversion Hn as [|? ? Hk0 Hn']; subst.
    match goal with
    | |- context [forEach (map fst l) (reregister o) ?s] =>
        destruct (IH s) as (Hc & Hs & Hw & Ho)
    end.
    + intros e He. apply Hl. right. exact He.
    + exact Hn'.
    + intros k Hin. simpl.
      destruct (Hk k (or_intror Hin)) as (H1 & H2 & H3).
      split; [exact H1|]. split; [exact H2|].
      rewrite get_assign_other; [exact H3|].
      intros ->. exact (Hk0 Hin).
    + unfold completion, exec in Hc, Hs, Hw, Ho. simpl in Hs, Hw, Ho.
      split; [exact Hc|]. split; [exact Hs|]. split; [exact Hw|].
      rewrite Ho. destruct (controlWin st); simpl;
        rewrite <- ?app_assoc; reflexivity.
Qed.

(** X8: on a platform that denies held accelerators, when every bound
    accelerator is held (each binding was granted) and none is a name
    inherited from [Object.prototype], the deferred pass neither adds nor
    releases a registration, and it sends the control window, if live, one
    [hotkey-mode] fallback notice for every binding, in key order. *)
Theorem deferred_pass_notifies_held st :
  denies_held os ->
  NoDup (JsObject.keys (registeredHotkeys st)) ->
  (forall k, In k (JsObject.keys (registeredHotkeys st)) ->
             inherited k = false /\ In k (map fst (shortcuts st))) ->
  completion (on_ready_timeout os) st = Normal tt /\
  shortcuts (exec (on_ready_timeout os) st) = shortcuts st /\
  outbox (exec (on_ready_timeout os) st)
  = outbox st ++
    match controlWin st with
    | Live =>
        map (fun e => fallback_notice Cmd (fst e) (snd e)) (registeredHotkeys st)
    | Absent | Destroyed => []
    end.
Proof.
  intros Hos Hn Hheld. unfold completion, exec. rewrite on_ready_timeout_eq.
  destruct (@reregister_held_loop (registeredHotkeys st) Hos
              (registeredHotkeys st) (emptied st))
    as (Hc & Hs & _ & Ho).
  - intros [k v] He. apply get_of_entry; assumption.
  - exact Hn.
  - intros k Hk. destruct (Hheld k Hk) as [H1 H2].
    split; [exact H1 | split; [exact H2 | reflexivity]].
  - unfold completion, exec in Hc, Hs, Ho. repeat split; assumption.
Qed.

(** The other side of X8: an inherited name that is bound and held is
    released by the deferred pass before it is asked for again (line 69
    reads the prototype once the bookkeeping is emptied), so a platform
    that grants what is free grants it and no notice is sent. *)
Remark deferred_pass_releases_inherited :
  let st := run os_free false
                [CreateWindows unit;
                 Register unit (js "constructor") (js "play")]
                (init unit) in
  shortcuts st = [(js "constructor", js "play")] /\
  shortcuts (exec (on_ready_timeout os_free) st)
  = [(js "constructor", js "play")] /\
  requests (exec (on_ready_timeout os_free) st) = 2 /\
  outbox (exec (on_ready_timeout os_free) st) = [].
Proof. repeat split. Qed.

(** The accelerators held after the deferred pass were held before or
    are keys of the bookkeeping, whose lookups the pass does not change. *)
Lemma deferred_pass_keys st (a : jsstring) :
  (a <> js "__proto__" ->
   JsObject.get (registeredHotkeys (exec (on_ready_timeout os) st)) a
   = JsObject.get (registeredHotkeys st) a) /\
  (tracked st ->
   In a (map fst (shortcuts (exec (on_ready_timeout os) st))) ->
   a = js "__proto__" \/ In a (JsObject.keys (registeredHotkeys st))).
Proof.
  unfold exec. rewrite on_ready_timeout_eq.
  destruct (reregister_loop (registeredHotkeys st)
              (JsObject.keys (registeredHotkeys st)) (emptied st))
    as (_ & Hg & _).
  unfold exec in Hg. split.
  - intros Ha. rewrite Hg by exact Ha.
    destruct (JsObject.get (registeredHotkeys st) a) as [v|] eqn:E;
      [|reflexivity].
    rewrite (mem_keys _ _ E). reflexivity.
  - intros Ht.
    set (P := fun st' : Store Cmd =>
                forall k, In k (map fst (shortcuts st')) ->
                          k = js "__proto__" \/
                          In k (JsObject.keys (registeredHotkeys st))).
    assert (HP : preserves P
                   (forEach (JsObject.keys (registeredHotkeys st))
                            (reregister (registeredHotkeys st)))).
    { apply preserves_forEach_in. intros x Hx st' HP'. unfold reregister.
      destruct (JsObject.get (registeredHotkeys st) x) as [v|];
        [|split; [eexists; reflexivity | exact HP']].
      split; [rewrite registerGlobalHotkey_eq; eexists; reflexivity|].
      intros k Hk. apply in_map_iff in Hk as [e [<- He]].
      change (snd (registerGlobalHotkey os x v st'))
        with (exec (registerGlobalHotkey os x v) st') in He.
      apply register_shortcuts_incl in He as [He| ->]; [|right; exact Hx].
      apply HP'. apply in_map. exact He. }
    apply (HP (emptied st)). exact Ht.
Qed.

(** *** The bulk replace *)

Lemma forEach_register_shortcuts (l : list (jsstring * jsstring)) :
  forall st (e : Shortcut),
    In e (shortcuts
            (exec (forEach l (fun b => registerGlobalHotkey os (fst b) (snd b)))
                  st)) ->
    In e (shortcuts st) \/ In e l.
Proof.
  induction l as [|b l IH]; intros st e; [left; assumption|].
  cbn [forEach]. unfold exec, bind.
  destruct (registerGlobalHotkey os (fst b) (snd b) st) as [[[]|err] st1] eqn:E.
  - intros H. apply IH in H as [H|H]; [|right; right; exact H].
    assert (Hst1 : st1 = exec (registerGlobalHotkey os (fst b) (snd b)) st)
      by (unfold exec; rewrite E; reflexivity).
    rewrite Hst1 in H. apply register_shortcuts_incl in H as [H| ->].
    + left. exact H.
    + right. left. destruct b; reflexivity.
  - rewrite registerGlobalHotkey_eq in E. discriminate.
Qed.

Lemma cleared_leaves_proto st (e : Shortcut) :
  tracked st -> In e (shortcuts (cleared st)) ->
  fst e = js "__proto__" /\ In e (shortcuts st).
Proof.
  intros Ht He. unfold cleared in He. simpl in He.
  apply filter_In in He as [He Hk]. split; [|exact He].
  destruct (Ht (fst e) (in_map fst _ _ He)) as [H|H]; [exact H|].
  exfalso. apply negb_true_iff in Hk.
  apply Bool.not_true_iff_false in Hk. apply Hk.
  apply existsb_exists. exists (fst e).
  split; [exact H | apply JsStringFacts.eqb_refl].
Qed.

Lemma forEach_register_assigns (l : list (jsstring * jsstring)) :
  forall st,
    registeredHotkeys
      (exec (forEach l (fun b => registerGlobalHotkey os (fst b) (snd b))) st)
    = fold_left (fun o b => assign o (fst b) (snd b)) l
                (registeredHotkeys st).
Proof.
  induction l as [|b l IH]; intros st; [reflexivity|].
  cbn [forEach fold_left]. unfold exec, bind.
  rewrite registerGlobalHotkey_eq.
  match goal with
  | |- context [forEach l ?f ?s] => specialize (IH s)
  end.
  unfold exec in IH. rewrite IH. reflexivity.
Qed.

(** X11: after the bulk replace the bookkeeping is what assigning the
    planned pairs one after the other to an empty object gives (for one
    accelerator the last pair wins; a pair for the name [__proto__] leaves
    no entry), whatever the store was and whatever the platform answered;
    and from a store in which every registration is tracked, every
    registration the process holds afterwards is one of the planned
    pairs, or a registration for [__proto__] that it held before: the
    first loop releases the keys of the bookkeeping only. *)
Theorem register_all_bookkeeping (hotkeys : JsObject.t (option jsstring)) st :
  NoDup (JsObject.keys hotkeys) ->
  tracked st ->
  registeredHotkeys (exec (on_register_all_hotkeys os hotkeys) st)
  = bookkeeping_of (planned hotkeys) /\
  (forall e : Shortcut,
      In e (shortcuts (exec (on_register_all_hotkeys os hotkeys) st)) ->
      In e (planned hotkeys) \/
      (fst e = js "__proto__" /\ In e (shortcuts st))).
Proof.
  intros Hn Ht. unfold exec. rewrite on_register_all_hotkeys_eq.
  rewrite register_entries_planned
    by (intros k h; apply get_of_entry; exact Hn).
  split.
  - apply (forEach_register_assigns (planned hotkeys) (cleared st)).
  - intros e He. apply forEach_register_shortcuts in He as [He|He];
      [|left; exact He].
    right. apply cleared_leaves_proto; assumption.
Qed.

(** A registration for [__proto__] outlives the bulk replace. *)
Remark proto_registration_survives_bulk_replace :
  let st := exec (on_register_hotkey os_free (Some (js "__proto__")) (js "play"))
                 (init unit) in
  registeredHotkeys st = [] /\
  shortcuts st = [(js "__proto__", js "play")] /\
  shortcuts (exec (on_register_all_hotkeys os_free []) st)
  = [(js "__proto__", js "play")].
Proof. repeat split. Qed.

(** *** Routing of the messages *)

Let all_routed st : Prop := Forall (@routed Cmd) (outbox st).

Lemma routed_step (A : Type) (c : M Cmd A) :
  (forall st,
      (exists a, fst (c st) = Normal a) /\
      exists sent,
        outbox (snd (c st)) = outbox st ++ sent /\ Forall (@routed Cmd) sent) ->
  preserves all_routed c.
Proof.
  intros Hc st H. destruct (Hc st) as [Ha [sent [Ho Hs]]].
  split; [exact Ha|]. unfold all_routed. rewrite Ho.
  apply Forall_app. split; assumption.
Qed.

Ltac quiet_step :=
  apply routed_step; intros ?st; split; [eexists; reflexivity|];
  exists []; rewrite app_nil_r; split; [reflexivity | constructor].

Lemma routed_register accelerator action :
  preserves all_routed (registerGlobalHotkey os accelerator action).
Proof.
  apply routed_step. intros st. rewrite registerGlobalHotkey_eq. simpl.
  split; [eexists; reflexivity|].
  assert (Hq : exists sent : list (Message Cmd),
             outbox st = outbox st ++ sent /\ Forall (@routed Cmd) sent)
    by (exists []; rewrite app_nil_r; split; [reflexivity | constructor]).
  destruct (reply_to os accelerator st); try exact Hq.
  destruct (controlWin st); try exact Hq.
  eexists; split; [reflexivity|].
  constructor; [split; reflexivity | constructor].
Qed.

Lemma routed_unregister accelerator :
  preserves all_routed (unregisterGlobalHotkey (Cmd:=Cmd) accelerator).
Proof.
  apply routed_step. intros st. rewrite unregisterGlobalHotkey_eq. simpl.
  split; [eexists; reflexivity|].
  exists []. rewrite app_nil_r. split; [|constructor].
  destruct (is_bound accelerator st); reflexivity.
Qed.

Lemma routed_handle (ev : Event Cmd) :
  preserves all_routed (handle os darwin ev).
Proof.
  destruct ev; simpl.
  - apply routed_register.
  - apply routed_unregister.
  - unfold on_register_hotkey.
    destruct (usable _); [apply routed_register | apply preserves_ret].
  - unfold on_unregister_hotkey.
    destruct (usable _); [apply routed_unregister | apply preserves_ret].
  - unfold on_register_all_hotkeys.
    apply preserves_bind; [apply preserves_pure | intros o].
    apply preserves_bind.
    { apply preserves_forEach. intros x. unfold globalShortcut_unregister.
      apply preserves_bind; [apply preserves_pure | intros held].
      quiet_step. }
    intros _. apply preserves_bind; [quiet_step | intros _].
    apply preserves_forEach. intros x. unfold register_entry.
    destruct (hotkey_of hotkeys x) as [h|]; [|apply preserves_ret].
    destruct (negb (JsString.truthy h)); [apply preserves_ret|].
    destruct (usable _); [apply routed_register | apply preserves_ret].
  - apply routed_step. intros st. rewrite on_graphic_command_eq. simpl.
    split; [eexists; reflexivity|].
    destruct (graphicsWin st);
      try (exists []; rewrite app_nil_r; split; [reflexivity | constructor]).
    eexists; split; [reflexivity|].
    constructor; [reflexivity | constructor].
  - unfold on_ready_timeout.
    apply preserves_bind; [apply preserves_pure | intros o].
    apply preserves_bind; [quiet_step | intros _].
    apply preserves_forEach. intros x.
    destruct (JsObject.get o x); [apply routed_register | apply preserves_ret].
  - unfold on_window_all_closed.
    apply preserves_bind; [quiet_step | intros _].
    apply preserves_when. quiet_step.
  - quiet_step.
  - unfold hotkey_pressed.
    apply preserves_bind; [apply preserves_pure | intros held].
    apply preserves_forEach. intros x.
    apply routed_step. intros st. rewrite hotkey_callback_eq. simpl.
    split; [eexists; reflexivity|].
    destruct (controlWin st);
      try (exists []; rewrite app_nil_r; split; [reflexivity | constructor]).
    eexists; split; [reflexivity|].
    constructor; [reflexivity | constructor].
  - quiet_step.
  - apply routed_step. intros st. split; [destruct w; eexists; reflexivity|].
    exists []. rewrite app_nil_r. split; [destruct w; reflexivity|constructor].
Qed.

(** X9: every message the main process has sent follows the protocol: to
    the control window only [global-hotkey-triggered] with an action name
    and [hotkey-mode] with mode ["in-window"], to the graphics window only
    [graphic-command] with a command. *)
Theorem outbox_routed st :
  reachable os darwin st -> Forall (@routed Cmd) (outbox st).
Proof.
  induction 1 as [|ev st _ IH]; [constructor|].
  apply (routed_handle ev). exact IH.
Qed.

(** *** Registrations and bookkeeping *)

Lemma in_keys_assign_inv (o : JsObject.t jsstring) (k v k0 : jsstring) :
  In k0 (JsObject.keys (assign o k v)) -> k0 = k \/ In k0 (JsObject.keys o).
Proof.
  destruct (assign_cases o k v) as [-> | [-> _]]; [|auto].
  apply in_keys_set.
Qed.

Lemma in_keys_assign_old (o : JsObject.t jsstring) (k v k0 : jsstring) :
  In k0 (JsObject.keys o) -> In k0 (JsObject.keys (assign o k v)).
Proof.
  destruct (assign_cases o k v) as [-> | [-> _]]; [|auto].
  intros H. apply in_keys_set. right. exact H.
Qed.

Lemma in_keys_assign_new (o : JsObject.t jsstring) (k v : jsstring) :
  k <> js "__proto__" -> In k (JsObject.keys (assign o k v)).
Proof.
  intros H. rewrite assign_set by exact H. apply in_keys_set. left.
  reflexivity.
Qed.

Lemma proto_or_not (k : jsstring) : k = js "__proto__" \/ k <> js "__proto__".
Proof.
  destruct (JsString.eqb k (js "__proto__")) eqn:E.
  - left. apply JsStringFacts.eqb_eq. exact E.
  - right. apply JsStringFacts.eqb_neq. exact E.
Qed.

Lemma tracked_register accelerator action :
  preserves (@tracked Cmd) (registerGlobalHotkey os accelerator action).
Proof.
  intros st Ht. split; [rewrite registerGlobalHotkey_eq; eexists; reflexivity|].
  intros a Ha. apply in_map_iff in Ha as [e [<- He]].
  change (snd (registerGlobalHotkey os accelerator action st))
    with (exec (registerGlobalHotkey os accelerator action) st) in *.
  apply register_shortcuts_incl in He.
  unfold exec. rewrite registerGlobalHotkey_eq. simpl.
  destruct He as [He| ->].
  - destruct (Ht (fst e) (in_map fst _ _ He)) as [H|H]; [left; exact H|].
    right. apply in_keys_assign_old. exact H.
  - simpl. destruct (proto_or_not accelerator) as [H|H]; [left; exact H|].
    right. apply in_keys_assign_new. exact H.
Qed.

Lemma tracked_unregister accelerator :
  preserves (@tracked Cmd) (unregisterGlobalHotkey accelerator).
Proof.
  intros st Ht. rewrite unregisterGlobalHotkey_eq. simpl.
  split; [eexists; reflexivity|].
  destruct (is_bound accelerator st); [|exact Ht].
  intros a Ha. simpl in *. apply in_map_iff in Ha as [e [<- He]].
  unfold others in He. apply filter_In in He as [He Hh].
  destruct (Ht (fst e) (in_map fst _ _ He)) as [H|H]; [left; exact H|].
  right. apply JsObjectFacts.in_keys_delete. split; [|exact H].
  intros Heq. unfold holds in Hh. rewrite <- Heq in Hh.
  rewrite JsStringFacts.eqb_refl in Hh. discriminate.
Qed.

Lemma tracked_register_entry (hotkeys : JsObject.t (option jsstring))
      (x : jsstring) :
  preserves (@tracked Cmd) (register_entry os hotkeys x).
Proof.
  unfold register_entry.
  destruct (hotkey_of hotkeys x) as [h|]; [|apply preserves_ret].
  destruct (negb (JsString.truthy h)); [apply preserves_ret|].
  destruct (usable _); [apply tracked_register | apply preserves_ret].
Qed.

Lemma tracked_handle (ev : Event Cmd) st :
  tracked st -> tracked (exec (handle os darwin ev) st).
Proof.
  intros Ht. destruct ev; simpl.
  - apply tracked_register, Ht.
  - apply tracked_unregister, Ht.
  - unfold on_register_hotkey.
    destruct (usable _); [apply tracked_register, Ht | exact Ht].
  - unfold on_unregister_hotkey.
    destruct (usable _); [apply tracked_unregister, Ht | exact Ht].
  - unfold exec. rewrite on_register_all_hotkeys_eq.
    apply (preserves_forEach (P := @tracked Cmd)).
    + intros x. apply tracked_register_entry.
    + intros a Ha. left. apply in_map_iff in Ha as [e [<- He]].
      apply (cleared_leaves_proto e Ht He).
  - unfold exec. rewrite on_graphic_command_eq. simpl.
    destruct (graphicsWin st); exact Ht.
  - (* the deferred pass *)
    intros a Ha.
    destruct (proto_or_not a) as [Hp|Hp]; [left; exact Hp|]. right.
    apply JsObjectFacts.get_in_keys.
    destruct (deferred_pass_keys st a) as [Hg Hs].
    rewrite (Hg Hp). apply JsObjectFacts.get_in_keys.
    destruct (Hs Ht Ha) as [H|H]; [contradiction | exact H].
  - unfold on_window_all_closed, exec, bind. simpl.
    destruct darwin; simpl; intros a [].
  - intros a [].
  - unfold exec, hotkey_pressed, bind, read.
    apply (preserves_forEach (P := @tracked Cmd)); [|exact Ht].
    intros x st' Ht'. rewrite hotkey_callback_eq. simpl.
    split; [eexists; reflexivity|]. destruct (controlWin st'); exact Ht'.
  - exact Ht.
  - destruct w; exact Ht.
Qed.

Lemma no_own_proto_handle (ev : Event Cmd) st :
  JsObject.get (registeredHotkeys st) (js "__proto__") = None ->
  JsObject.get (registeredHotkeys (exec (handle os darwin ev) st))
               (js "__proto__") = None.
Proof.
  set (P := fun s : Store Cmd =>
              JsObject.get (registeredHotkeys s) (js "__proto__") = None).
  assert (Hreg : forall a v, preserves P (registerGlobalHotkey os a v)).
  { intros a v s Hs. rewrite registerGlobalHotkey_eq. simpl.
    split; [eexists; reflexivity|]. apply get_assign_proto. exact Hs. }
  assert (Hun : forall a, preserves P (unregisterGlobalHotkey (Cmd:=Cmd) a)).
  { intros a s Hs. rewrite unregisterGlobalHotkey_eq. simpl.
    split; [eexists; reflexivity|].
    destruct (is_bound a s); [|exact Hs]. unfold P. simpl.
    destruct (proto_or_not a) as [->|Ha];
      [apply JsObjectFacts.get_delete_same|].
    rewrite JsObjectFacts.get_delete_other by congruence. exact Hs. }
  intros H. change (P (exec (handle os darwin ev) st)).
  destruct ev; simpl.
  - apply Hreg, H.
  - apply Hun, H.
  - unfold on_register_hotkey. destruct (usable _); [apply Hreg, H | exact H].
  - unfold on_unregister_hotkey. destruct (usable _); [apply Hun, H | exact H].
  - unfold exec. rewrite on_register_all_hotkeys_eq.
    apply (preserves_forEach (P := P)); [|reflexivity].
    intros x. unfold register_entry.
    destruct (hotkey_of hotkeys x) as [h|]; [|apply preserves_ret].
    destruct (negb (JsString.truthy h)); [apply preserves_ret|].
    destruct (usable _); [apply Hreg | apply preserves_ret].
  - unfold exec. rewrite on_graphic_command_eq. simpl.
    destruct (graphicsWin st); exact H.
  - unfold exec. rewrite on_ready_timeout_eq.
    apply (preserves_forEach (P := P)); [|reflexivity].
    intros x. unfold reregister.
    destruct (JsObject.get (registeredHotkeys st) x);
      [apply Hreg | apply preserves_ret].
  - unfold on_window_all_closed, exec, bind. simpl.
    destruct darwin; exact H.
  - exact H.
  - unfold exec, hotkey_pressed, bind, read.
    apply (preserves_forEach (P := P)); [|exact H].
    intros x st' H'. rewrite hotkey_callback_eq. simpl.
    split; [eexists; reflexivity|]. destruct (controlWin st'); exact H'.
  - exact H.
  - destruct w; exact H.
Qed.

(** X10: the process never holds a registration that the bookkeeping has
    forgotten, but for the one name the bookkeeping cannot record: in
    every reachable store, on every platform, [__proto__] is not a key of
    [registeredHotkeys], and each other accelerator with an active
    registration is. *)
Theorem registrations_tracked st :
  reachable os darwin st ->
  JsObject.get (registeredHotkeys st) (js "__proto__") = None /\
  tracked st.
Proof.
  induction 1 as [|ev st _ [IHp IHt]]; [split; [reflexivity | intros a []]|].
  split; [apply no_own_proto_handle, IHp | apply tracked_handle, IHt].
Qed.

(** *** Accelerators that come through the handlers *)

Lemma presentable_register accelerator action :
  presentable accelerator ->
  preserves (@presentable_keys Cmd) (registerGlobalHotkey os accelerator action).
Proof.
  intros Hp st [Hk Hs].
  split; [rewrite registerGlobalHotkey_eq; eexists; reflexivity|].
  split.
  - rewrite registerGlobalHotkey_eq. simpl. apply Forall_forall.
    intros k Hin. apply in_keys_assign_inv in Hin as [->|Hin]; [exact Hp|].
    rewrite Forall_forall in Hk. apply Hk. exact Hin.
  - apply Forall_forall. intros k Hin. apply in_map_iff in Hin as [e [<- He]].
    change (snd (registerGlobalHotkey os accelerator action st))
      with (exec (registerGlobalHotkey os accelerator action) st) in He.
    apply register_shortcuts_incl in He as [He| ->]; [|exact Hp].
    rewrite Forall_forall in Hs. apply Hs. apply in_map. exact He.
Qed.

Lemma presentable_unregister accelerator :
  preserves (@presentable_keys Cmd) (unregisterGlobalHotkey accelerator).
Proof.
  intros st [Hk Hs]. rewrite unregisterGlobalHotkey_eq. simpl.
  split; [eexists; reflexivity|].
  destruct (is_bound accelerator st); [|split; assumption].
  split; simpl; apply Forall_forall; intros k Hin.
  - apply JsObjectFacts.in_keys_delete in Hin as [_ Hin].
    rewrite Forall_forall in Hk. apply Hk. exact Hin.
  - apply in_map_iff in Hin as [e [<- He]].
    unfold others in He. apply filter_In in He as [He _].
    rewrite Forall_forall in Hs. apply Hs. apply in_map. exact He.
Qed.

Lemma presentable_release accelerator :
  preserves (@presentable_keys Cmd) (globalShortcut_unregister accelerator).
Proof.
  intros st [Hk Hs]. split; [eexists; reflexivity|].
  split; simpl; [exact Hk|]. apply Forall_forall. intros k Hin.
  apply in_map_iff in Hin as [e [<- He]]. apply filter_In in He as [He _].
  rewrite Forall_forall in Hs. apply Hs. apply in_map. exact He.
Qed.

Lemma presentable_handle (ev : Event Cmd) st :
  direct_call ev = false ->
  presentable_keys st -> presentable_keys (exec (handle os darwin ev) st).
Proof.
  intros Hev Hp. destruct ev; simpl in *; try discriminate.
  - unfold on_register_hotkey.
    destruct (usable _) as [a|] eqn:E; [|exact Hp].
    apply presentable_register; [|exact Hp].
    apply (usable_presentable _ E).
  - unfold on_unregister_hotkey.
    destruct (usable _); [apply presentable_unregister, Hp | exact Hp].
  - unfold on_register_all_hotkeys.
    apply (@preserves_bind _ (@presentable_keys Cmd)); [|intros o|exact Hp].
    { apply preserves_pure. }
    apply preserves_bind;
      [apply preserves_forEach; intros x; apply presentable_release|].
    intros _. apply preserves_bind.
    { intros st' [_ Hs']. split; [eexists; reflexivity|].
      split; [constructor | exact Hs']. }
    intros _. apply preserves_forEach. intros x. unfold register_entry.
    destruct (hotkey_of hotkeys x) as [h|]; [|apply preserves_ret].
    destruct (negb (JsString.truthy h)); [apply preserves_ret|].
    destruct (usable _) as [a|] eqn:E; [|apply preserves_ret].
    apply presentable_register. apply (usable_presentable _ E).
  - unfold exec. rewrite on_graphic_command_eq. simpl.
    destruct (graphicsWin st); exact Hp.
  - unfold exec. rewrite on_ready_timeout_eq.
    apply (@preserves_forEach_in _ _ (@presentable_keys Cmd)).
    + intros x Hx. unfold reregister.
      destruct (JsObject.get (registeredHotkeys st) x);
        [|apply preserves_ret].
      apply presentable_register. destruct Hp as [Hk _].
      rewrite Forall_forall in Hk. apply Hk. exact Hx.
    + destruct Hp as [_ Hs]. split; [constructor | exact Hs].
  - unfold on_window_all_closed, exec, bind. simpl.
    destruct Hp as [Hk _]. destruct darwin; simpl; split;
      (exact Hk || constructor).
  - destruct Hp as [Hk _]. split; [exact Hk | constructor].
  - unfold exec, hotkey_pressed, bind, read.
    apply (preserves_forEach (P := @presentable_keys Cmd)); [|exact Hp].
    intros x st' Hp'. rewrite hotkey_callback_eq. simpl.
    split; [eexists; reflexivity|]. destruct (controlWin st'); exact Hp'.
  - exact Hp.
  - destruct w; exact Hp.
Qed.

(** X12: as long as the registry functions are called by the handlers
    only, every accelerator of the bookkeeping and every accelerator the
    process holds is a translator output: not empty and without white
    space. *)
Theorem accelerators_presentable st :
  app_reachable os darwin st -> presentable_keys st.
Proof.
  induction 1 as [|ev st Hev _ IH]; [split; constructor|].
  apply presentable_handle; assumption.
Qed.

End Passes.




(** ** Concrete runs of the further properties *)

Lemma reachable_run (Cmd : Type) (os : Platform) (darwin : bool)
      (evs : list (Event Cmd)) :
  forall st, reachable os darwin st -> reachable os darwin (run os darwin evs st).
Proof.
  induction evs as [|ev evs IH]; intros st H; [exact H|].
  simpl. apply IH. constructor. exact H.
Qed.

Lemma app_reachable_run (Cmd : Type) (os : Platform) (darwin : bool)
      (evs : list (Event Cmd)) :
  forallb (fun ev => negb (direct_call ev)) evs = true ->
  forall st, app_reachable os darwin st ->
             app_reachable os darwin (run os darwin evs st).
Proof.
  induction evs as [|ev evs IH]; intros Hd st H; [exact H|].
  simpl in Hd. apply andb_true_iff in Hd as [Hev Hd].
  simpl. apply IH; [exact Hd|]. constructor; [|exact H].
  destruct (direct_call ev); [discriminate | reflexivity].
Qed.

Lemma os_free_denies_held : denies_held os_free.
Proof.
  intros n held accelerator Hin. unfold os_free.
  destruct (existsb (fun e => JsString.eqb accelerator (fst e)) held) eqn:E;
    [reflexivity|].
  exfalso. apply Bool.not_true_iff_false in E. apply E.
  apply existsb_exists. apply in_map_iff in Hin as [e [He Hin]].
  exists e. split; [exact Hin|]. subst. apply JsStringFacts.eqb_refl.
Qed.

(** Two spaces as a hotkey string. *)
Lemma blank_hotkey_ignored_witness :
  blank (Some (js "  ")) /\
  on_register_hotkey os_free (Some (js "  ")) (js "play") (init unit)
  = (Normal tt, init unit).
Proof.
  assert (Hb : blank (Some (js "  "))) by (repeat constructor).
  split; [exact Hb|].
  exact (proj1 (proj2 (@blank_hotkey_ignored unit os_free (Some (js "  "))
                         (js "play") (init unit) Hb))).
Defined.

(** A hotkey string with a modifier. *)
Lemma nonblank_hotkey_registered_witness :
  ~ blank (Some (js "Ctrl + K")) /\
  convertToElectronAccelerator (Some (js "Ctrl + K"))
  <> Some (js "__proto__") /\
  exists a,
    convertToElectronAccelerator (Some (js "Ctrl + K")) = Some a /\
    JsObject.get
      (registeredHotkeys
         (exec (on_register_hotkey os_free (Some (js "Ctrl + K")) (js "play"))
               (init unit))) a
    = Some (js "play").
Proof.
  assert (Hn : ~ blank (Some (js "Ctrl + K"))).
  { intros H. inversion H. discriminate. }
  assert (Hp : convertToElectronAccelerator (Some (js "Ctrl + K"))
               <> Some (js "__proto__")) by discriminate.
  split; [exact Hn | split; [exact Hp|]].
  destruct (@nonblank_hotkey_registered unit os_free (Some (js "Ctrl + K"))
              (js "play") (init unit) Hn Hp) as (a & Hc & _ & _ & _ & Hg).
  exists a. split; [exact Hc | exact Hg].
Defined.

(** Registering and unregistering one hotkey from a fresh process. *)
Lemma ipc_register_unregister_roundtrip_witness :
  usable (convertToElectronAccelerator (Some (js "Ctrl + K")))
  = Some (js "CommandOrControl+K") /\
  js "play" <> [] /\
  registeredHotkeys
    (exec (on_unregister_hotkey (Some (js "Ctrl + K")))
       (exec (on_register_hotkey os_free (Some (js "Ctrl + K")) (js "play"))
             (init unit)))
  = [].
Proof.
  assert (Ha : js "play" <> []) by discriminate.
  split; [reflexivity | split; [exact Ha|]].
  exact (proj1 (proj2 (@ipc_register_unregister_roundtrip unit os_free
                         (Some (js "Ctrl + K")) (js "CommandOrControl+K")
                         (js "play") (init unit) eq_refl Ha eq_refl))).
Defined.

(** A granted registration, then a press. *)
Lemma granted_hotkey_fires_witness :
  let st := exec (createWindows (Cmd:=unit)) (init unit) in
  js "F5" <> js "__proto__" /\
  reply_to os_free (js "F5") st = Granted /\
  outbox (exec (hotkey_pressed (js "F5"))
               (exec (registerGlobalHotkey os_free (js "F5") (js "play")) st))
  = [triggered unit (js "play")].
Proof.
  assert (Hp : js "F5" <> js "__proto__") by discriminate.
  split; [exact Hp | split; [reflexivity|]].
  exact (proj1 (proj2 (@granted_hotkey_fires unit os_free (js "F5") (js "play")
                         (exec (createWindows (Cmd:=unit)) (init unit))
                         os_free_refuses_held Hp eq_refl))).
Defined.

(** An empty action name, then a second registration. *)
Lemma empty_action_sticks_witness :
  js "F5" <> js "__proto__" /\
  reply_to os_free (js "F5") (init unit) = Granted /\
  registrations_of (js "F5")
    (shortcuts
       (exec (registerGlobalHotkey os_free (js "F5") (js "play"))
          (exec (registerGlobalHotkey os_free (js "F5") (js "")) (init unit))))
  = [(js "F5", js "")].
Proof.
  assert (Hp : js "F5" <> js "__proto__") by discriminate.
  split; [exact Hp | split; [reflexivity|]].
  exact (proj2 (proj2 (@empty_action_sticks unit os_free (js "F5") (js "play")
                         (init unit) os_free_refuses_held Hp eq_refl))).
Defined.

(** Two granted hotkeys, then the deferred pass. *)
Lemma deferred_pass_notifies_held_witness :
  let st := run os_free false
                [CreateWindows unit; Register unit (js "F5") (js "play");
                 Register unit (js "F6") (js "stop")]
                (init unit) in
  NoDup (JsObject.keys (registeredHotkeys st)) /\
  shortcuts (exec (on_ready_timeout os_free) st) = shortcuts st /\
  outbox (exec (on_ready_timeout os_free) st)
  = [fallback_notice unit (js "F5") (js "play");
     fallback_notice unit (js "F6") (js "stop")].
Proof.
  set (st := run os_free false
                 [CreateWindows unit; Register unit (js "F5") (js "play");
                  Register unit (js "F6") (js "stop")]
                 (init unit)).
  assert (Hn : NoDup (JsObject.keys (registeredHotkeys st))).
  { repeat constructor; simpl; intuition discriminate. }
  assert (Hh : forall k, In k (JsObject.keys (registeredHotkeys st)) ->
                         inherited k = false /\ In k (map fst (shortcuts st))).
  { intros k Hk. split; [|exact Hk].
    destruct Hk as [<-|[<-|[]]]; reflexivity. }
  split; [exact Hn|].
  exact (proj2 (@deferred_pass_notifies_held unit os_free st
                  os_free_denies_held Hn Hh)).
Defined.

(** A run with a fallback notice, a trigger and a relayed command. *)
Lemma outbox_routed_witness :
  let st := run os_free false
                [CreateWindows nat; Register nat (js "F5") (js "play");
                 ReadyTimeout nat; HotkeyPressed nat (js "F5");
                 IpcGraphicCommand 7]
                (init nat) in
  List.length (outbox st) = 3 /\ Forall (@routed nat) (outbox st).
Proof.
  split; [reflexivity|].
  apply (@outbox_routed nat os_free false). apply reachable_run. constructor.
Defined.

(** A registration for [__proto__], a bulk replace on a platform that
    grants one request only, and the deferred pass. *)
Lemma registrations_tracked_witness :
  let st := run os_free false
                [IpcRegisterHotkey unit (Some (js "__proto__")) (js "next");
                 IpcRegisterAllHotkeys unit
                   [(js "play", Some (js "F5")); (js "stop", Some (js "F6"))];
                 ReadyTimeout unit]
                (init unit) in
  map fst (shortcuts st) = [js "__proto__"; js "F5"; js "F6"] /\
  JsObject.keys (registeredHotkeys st) = [js "F5"; js "F6"] /\
  JsObject.get (registeredHotkeys st) (js "__proto__") = None /\
  tracked st.
Proof.
  split; [reflexivity | split; [reflexivity|]].
  apply (@registrations_tracked unit os_free false). apply reachable_run.
  constructor.
Defined.

(** A bulk replace in which two actions ask for one accelerator. *)
Lemma register_all_bookkeeping_witness :
  let hotkeys := [(js "play", Some (js "Ctrl + K"));
                  (js "stop", Some (js "Ctrl+K"))] in
  let st := exec (registerGlobalHotkey os_free (js "F5") (js "old"))
                 (init unit) in
  NoDup (JsObject.keys hotkeys) /\
  tracked st /\
  registeredHotkeys (exec (on_register_all_hotkeys os_free hotkeys) st)
  = [(js "CommandOrControl+K", js "stop")].
Proof.
  assert (Hn : NoDup (JsObject.keys
                        [(js "play", Some (js "Ctrl + K"));
                         (js "stop", Some (js "Ctrl+K"))])).
  { repeat constructor; simpl; intuition discriminate. }
  assert (Ht : tracked (exec (registerGlobalHotkey os_free (js "F5") (js "old"))
                             (init unit))).
  { intros a Ha. right. exact Ha. }
  split; [exact Hn | split; [exact Ht|]].
  exact (proj1 (@register_all_bookkeeping unit os_free _ _ Hn Ht)).
Defined.

(** Handlers only: a bulk replace, a registration, the deferred pass. *)
Lemma accelerators_presentable_witness :
  let st := run os_free false
                [IpcRegisterAllHotkeys unit
                   [(js "play", Some (js "Ctrl + K")); (js "stop", Some (js " "))];
                 IpcRegisterHotkey unit (Some (js "Meta + F 5")) (js "next");
                 ReadyTimeout unit]
                (init unit) in
  JsObject.keys (registeredHotkeys st)
  = [js "CommandOrControl+K"; js "Super+F5"] /\
  presentable_keys st.
Proof.
  split; [reflexivity|].
  apply (@accelerators_presentable unit os_free false).
  apply app_reachable_run; [reflexivity | constructor].
Defined.

(** The deferred pass over two bindings. *)
Lemma deferred_pass_keeps_bindings_witness :
  let st := run os_once false
                [Register unit (js "F5") (js "play");
                 Register unit (js "constructor") (js "stop")]
                (init unit) in
  JsObject.get (registeredHotkeys st) (js "__proto__") = None /\
  JsObject.get (registeredHotkeys (exec (on_ready_timeout os_once) st))
               (js "constructor")
  = Some (js "stop") /\
  requests (exec (on_ready_timeout os_once) st) = 4.
Proof.
  set (st := run os_once false
                 [Register unit (js "F5") (js "play");
                  Register unit (js "constructor") (js "stop")]
                 (init unit)).
  assert (H0 : JsObject.get (registeredHotkeys st) (js "__proto__") = None)
    by reflexivity.
  split; [exact H0|].
  destruct (@deferred_pass_keeps_bindings unit os_once st)
    as (_ & _ & Hk & Hn).
  split; [exact (Hk H0 (js "constructor")) | exact Hn].
Defined.
